(** * NexusAI chat-room endpoints: a shallow embedding of
      [api/chatroom/chatroom.py] and the properties of its handlers.

    The handlers are translated one by one, in the order of the source
    file, as state-passing functions over a relational store.  Python
    dicts are finite maps, Python sets are finite sets, database tables
    are lists of rows.  The two list endpoints ([chatroom_list] and
    [recent_chatroom_list]) are single queries that write nothing; they
    are not part of the development. *)

From stdpp Require Import base decidable option list strings countable gmap fin_maps fin_sets.
From Stdlib Require Import ZArith Lia.

Local Open Scope string_scope.
Local Open Scope Z_scope.

(** ** Python values *)

(** The scalar values that travel through the handlers: [None], integers
    and strings.  On these constructors Python's [==] is structural
    equality and every value is hashable, so they can be members of a
    [set] and values of a table column.  (Booleans and floats, which
    Python's [==] identifies with integers, are left out.) *)
Inductive pyval : Type :=
  | PNone
  | PInt (n : Z)
  | PStr (s : string).

#[global] Instance pyval_eq_dec : EqDecision pyval.
Proof. solve_decision. Defined.

#[global] Instance pyval_inhabited : Inhabited pyval := populate PNone.

Definition pyval_to_sum (v : pyval) : unit + (Z + string) :=
  match v with
  | PNone => inl tt
  | PInt n => inr (inl n)
  | PStr s => inr (inr s)
  end.

Definition pyval_of_sum (x : unit + (Z + string)) : pyval :=
  match x with
  | inl _ => PNone
  | inr (inl n) => PInt n
  | inr (inr s) => PStr s
  end.

#[global] Instance pyval_countable : Countable pyval.
Proof.
  apply (inj_countable' pyval_to_sum pyval_of_sum).
  intros []; reflexivity.
Defined.

(** Python truthiness, as used by [if not x]. *)
Definition truthy (v : pyval) : bool :=
  match v with
  | PNone => false
  | PInt n => negb (n =? 0)
  | PStr s => negb (bool_decide (s = ""))
  end.

(** [x is None or x == ''] *)
Definition none_or_empty (v : pyval) : bool :=
  bool_decide (v = PNone) || bool_decide (v = PStr "").

(** [x in [0, 1]] *)
Definition in_0_1 (v : pyval) : bool :=
  bool_decide (v = PInt 0) || bool_decide (v = PInt 1).

(** A dict with string keys, and an element of the request's [agent]
    list: either a dict or anything else ([isinstance(item, dict)] is
    the only thing the handlers ask of it). *)
Abbreviation pydict := (gmap string pyval).

Inductive item : Type :=
  | NotDict (v : pyval)
  | Dict (d : pydict).

(** [d[k]].  The handlers subscript an entry only after the key check
    and a table row only on one of its columns; a missing column reads
    as [None] (SQL NULL). *)
Definition col (d : pydict) (k : string) : pyval := default PNone (d !! k).

Definition item_get (i : item) (k : string) : pyval :=
  match i with
  | NotDict _ => PNone
  | Dict d => col d k
  end.

(** ** The store

    [core.database.models] is not part of the sources at hand.  The four
    model classes the handlers call ([Apps], [Chatrooms],
    [ChatroomAgentRelation], [ChatroomMessages]) are modelled below from
    the specification's description of the stores. *)

Abbreviation row := (gmap string pyval).

Record table : Type := Table {
  rows : list row;
  next_id : Z
}.

(** One entry of a [conditions] list: [{"column": c, "value": v}]. *)
Definition cond : Type := string * pyval.

Definition matches (conds : list cond) (r : row) : bool :=
  forallb (λ c : cond, bool_decide (col r c.1 = c.2)) conds.

(** Modelled from the spec: the generic [Model.insert(data)], which adds
    one row and returns its auto-increment id. *)
Definition tbl_insert (data : row) (t : table) : Z * table :=
  (next_id t,
   Table (rows t ++ [<["id" := PInt (next_id t)]> data]) (next_id t + 1)).

(** Modelled from the spec: the generic [Model.update(conditions, data)],
    which overwrites the columns of [data] in every row that satisfies
    all the conditions. *)
Definition tbl_update (conds : list cond) (data : row) (t : table) : table :=
  Table (map (λ r, if matches conds r then data ∪ r else r) (rows t)) (next_id t).

(** Modelled from the spec: the generic [Model.delete(conditions)], a
    hard delete of every row that satisfies all the conditions. *)
Definition tbl_delete (conds : list cond) (t : table) : table :=
  Table (List.filter (λ r, negb (matches conds r)) (rows t)) (next_id t).

(** Modelled from the spec: a query by conditions, the rows that satisfy
    all of them, in table order. *)
Definition tbl_select (conds : list cond) (t : table) : list row :=
  List.filter (matches conds) (rows t).

Record db : Type := Db {
  apps : table;
  chatrooms : table;
  relations : table;
  messages : table;
  agents : table
}.

Definition empty_table : table := Table [] 1.
Definition empty_db : db :=
  Db empty_table empty_table empty_table empty_table empty_table.

Definition set_apps (t : table) (d : db) : db :=
  Db t (chatrooms d) (relations d) (messages d) (agents d).
Definition set_chatrooms (t : table) (d : db) : db :=
  Db (apps d) t (relations d) (messages d) (agents d).
Definition set_relations (t : table) (d : db) : db :=
  Db (apps d) (chatrooms d) t (messages d) (agents d).
Definition set_messages (t : table) (d : db) : db :=
  Db (apps d) (chatrooms d) (relations d) t (agents d).

(** ** Store effects

    A handler is a function from the store to a response and the store
    it leaves behind. *)
Definition M (A : Type) : Type := db → A * db.

Definition ret {A} (a : A) : M A := λ d, (a, d).
Definition bind {A B} (m : M A) (k : A → M B) : M B :=
  λ d, let (a, d') := m d in k a d'.
(** A query: it returns a value and leaves the store as it is. *)
Definition read {A} (q : db → A) : M A := λ d, (q d, d).
(** A statement: it changes the store and returns nothing. *)
Definition write (w : db → db) : M unit := λ d, (tt, w d).

Notation "x <- m ;; k" := (bind m (λ x, k))
  (at level 100, m at next level, right associativity,
   format "'[v' x  <-  m  ;; '/' k ']'").
Notation "m ;;; k" := (bind m (λ _, k))
  (at level 100, right associativity, format "'[v' m  ;;; '/' k ']'").

(** [for x in l: body(x)] *)
Fixpoint for_each {A} (l : list A) (body : A → M unit) : M unit :=
  match l with
  | [] => ret tt
  | x :: l' => body x ;;; for_each l' body
  end.

(** *** [Apps]: [insert] and [update] are the generic statements on the
    applications table. *)
Definition Apps_insert (data : row) : M Z :=
  λ d, let (i, t) := tbl_insert data (apps d) in (i, set_apps t d).
Definition Apps_update (conds : list cond) (data : row) : M unit :=
  write (λ d, set_apps (tbl_update conds data (apps d)) d).
(** Modelled from the spec: [Apps.get_app_by_id], the application record
    with the given id ([None] when there is none). *)
Definition get_app_by_id (app_id : pyval) (d : db) : option row :=
  head (tbl_select [("id", app_id)] (apps d)).

(** *** [Chatrooms]: [insert] and [update] are the generic statements on
    the rooms table. *)
Definition Chatrooms_insert (data : row) : M Z :=
  λ d, let (i, t) := tbl_insert data (chatrooms d) in (i, set_chatrooms t d).
Definition Chatrooms_update (conds : list cond) (data : row) : M unit :=
  write (λ d, set_chatrooms (tbl_update conds data (chatrooms d)) d).

(** The dict returned by [search_chatrooms_id]. *)
Record chatroom_lookup : Type := ChatroomLookup {
  lk_status : bool;
  lk_app_id : pyval;
  lk_max_round : pyval;
  lk_smart_selection : pyval;
  lk_chatroom_status : pyval
}.

(** Modelled from the spec: [Chatrooms.search_chatrooms_id], which finds
    the room with this id that belongs to the caller and is not
    soft-deleted (status 1); ['status'] tells whether there is one. *)
Definition search_chatrooms_id (chatroom_id uid : Z) (d : db) : chatroom_lookup :=
  match tbl_select [("id", PInt chatroom_id); ("user_id", PInt uid);
                    ("status", PInt 1)] (chatrooms d) with
  | [] => ChatroomLookup false PNone PNone PNone PNone
  | r :: _ =>
      ChatroomLookup true (col r "app_id") (col r "max_round")
        (col r "smart_selection") (col r "chatroom_status")
  end.

(** Modelled from the spec: [Chatrooms.search_agent_id], the global
    agent lookup (not scoped to a room). *)
Definition search_agent_id (agent_id : Z) (d : db) : option row :=
  head (tbl_select [("id", PInt agent_id)] (agents d)).

(** *** [ChatroomAgentRelation]: [update] and [delete] are the generic
    statements on the membership table. *)
Definition Relation_update (conds : list cond) (data : row) : M unit :=
  write (λ d, set_relations (tbl_update conds data (relations d)) d).
Definition Relation_delete (conds : list cond) : M unit :=
  write (λ d, set_relations (tbl_delete conds (relations d)) d).

(** Modelled from the spec: one step of [insert_agent], an upsert on the
    key (chatroom_id, agent_id): a membership that is already there gets
    its [active] column rewritten, otherwise a row is added. *)
Definition upsert_agent (chatroom_id : Z) (t : table) (a : item) : table :=
  let key := [("agent_id", item_get a "agent_id");
              ("chatroom_id", PInt chatroom_id)] in
  if existsb (matches key) (rows t)
  then tbl_update key {["active" := item_get a "active"]} t
  else (tbl_insert {["chatroom_id" := PInt chatroom_id;
                     "agent_id" := item_get a "agent_id";
                     "active" := item_get a "active"]} t).2.

(** Modelled from the spec: [ChatroomAgentRelation.insert_agent], the
    bulk insert/upsert of the entries of [data['agent']] for the room
    [data['chatroom_id']], entry after entry in list order. *)
Definition insert_agent (agent : list item) (chatroom_id : Z) : M unit :=
  write (λ d, set_relations (foldl (upsert_agent chatroom_id) (relations d) agent) d).

(** Modelled from the spec: the memberships of a room. *)
Definition get_agents_by_chatroom_id (chatroom_id : Z) (d : db) : list row :=
  tbl_select [("chatroom_id", PInt chatroom_id)] (relations d).

(** Modelled from the spec: the memberships of a room whose [active]
    flag is 1. *)
Definition get_active_agents_by_chatroom_id (chatroom_id : Z) (d : db) : list row :=
  tbl_select [("chatroom_id", PInt chatroom_id); ("active", PInt 1)] (relations d).

(** Modelled from the spec: [search_chatroom_agent_relation_id];
    ['status'] tells whether the (room, agent) membership exists. *)
Definition search_chatroom_agent_relation_id (chatroom_id agent_id : Z) (d : db) : bool :=
  existsb (matches [("chatroom_id", PInt chatroom_id); ("agent_id", PInt agent_id)])
    (rows (relations d)).

(** Modelled from the spec: [show_chatroom_agent], the memberships of a
    room, each with the [user_id] of the user who owns the agent. *)
Definition show_chatroom_agent (chatroom_id : Z) (d : db) : list row :=
  map (λ r, <["user_id" :=
               from_option (λ a, col a "user_id") PNone
                 (head (tbl_select [("id", col r "agent_id")] (agents d)))]> r)
      (get_agents_by_chatroom_id chatroom_id d).

(** *** [ChatroomMessages]: [update] is the generic statement on the
    message table. *)
Definition Messages_update (conds : list cond) (data : row) : M unit :=
  write (λ d, set_messages (tbl_update conds data (messages d)) d).

(** Modelled from the spec: [history_chatroom_messages], one page of the
    room's messages; a page past the end is empty. *)
Definition history_chatroom_messages (chatroom_id page page_size : Z) (d : db) : list row :=
  take (Z.to_nat page_size)
    (drop (Z.to_nat ((page - 1) * page_size))
       (tbl_select [("chatroom_id", PInt chatroom_id)] (messages d))).

(** ** Requests and responses *)

(** The caller identity injected into every handler. *)
Record TokenData : Type := { uid : Z; team_id : Z }.

(** The body of create and update (the two schemas have one shape). *)
Record ReqChatroomCreateSchema : Type := {
  name : pyval;
  description : pyval;
  max_round : pyval;
  agent : list item
}.
Abbreviation ReqChatroomUpdateSchema := ReqChatroomCreateSchema.

Record ToggleSmartSelectionSwitch : Type := { smart_selection : pyval }.
Record ReqAgentSettingSchema : Type := { active : pyval }.

(** What a success envelope carries in [data]. *)
Inductive payload : Type :=
  | NoData
  | ChatroomId (chatroom_id : Z)
  | Msg (msg : string)
  | Rows (l : list row)
  | Details (chat_info : option row) (agent_list : list row)
            (max_round smart_selection chatroom_status : pyval).

(** The two envelope builders of [api.utils.common], with the arguments
    the handlers pass to them; an argument left out at the call site is
    [None] here. *)
Inductive response : Type :=
  | response_success (data : payload) (detail : option string) (code : option Z)
  | response_error (detail : string).

(** Modelled from the spec: the envelope's [success] flag, set by
    [response_success] and cleared by [response_error]. *)
Definition success (r : response) : bool :=
  match r with
  | response_success _ _ _ => true
  | response_error _ => false
  end.

(** The localized message lookup is external; a message is identified by
    its key. *)
Definition get_language_content (key : string) : string := key.

(** ** The handlers *)

Definition required_keys : gset string := {["agent_id"; "active"]}.

(** The per-item loop of create and update:
[[
    for index, item in enumerate(agent):
        if not isinstance(item, dict): return response_error(...)
        missing_keys = required_keys - item.keys()
        if missing_keys: return response_error(...)
]]
    [Some key] is the error the loop returns with, [None] means it ran
    to its end. *)
Fixpoint check_agent_items (agent : list item) : option string :=
  match agent with
  | [] => None
  | NotDict _ :: _ => Some "chatroom_agent_item_must_be_a_dictionary"
  | Dict d :: rest =>
      let missing_keys := required_keys ∖ dom d in
      if bool_decide (missing_keys ≠ ∅)
      then Some "chatroom_agent_item_missing_keys"
      else check_agent_items rest
  end.

(** [not l] for a list. *)
Definition list_falsy {A} (l : list A) : bool :=
  match l with [] => true | _ => false end.

(** [POST /] *)
Definition create_chatroom (chat_request : ReqChatroomCreateSchema)
    (userinfo : TokenData) : M response :=
  let name := name chat_request in
  let description := description chat_request in
  let max_round := max_round chat_request in
  let agent := agent chat_request in
  let mode := 5 in
  if negb (truthy name) then
    ret (response_error (get_language_content "chatroom_name_is_required"))
  else if none_or_empty max_round then
    ret (response_error (get_language_content "chatroom_max_round_is_required"))
  else if list_falsy agent || (length agent =? 0)%nat then
    ret (response_error (get_language_content "chatroom_agent_is_required"))
  else match check_agent_items agent with
  | Some key => ret (response_error (get_language_content key))
  | None =>
    app_id <- Apps_insert
      {[ "team_id" := PInt (team_id userinfo);
         "user_id" := PInt (uid userinfo);
         "name" := name;
         "description" := description;
         "mode" := PInt mode;
         "status" := PInt 1 ]} ;;
    chatroom_id <- Chatrooms_insert
      {[ "team_id" := PInt (team_id userinfo);
         "user_id" := PInt (uid userinfo);
         "app_id" := PInt app_id;
         "max_round" := max_round;
         "status" := PInt 1 ]} ;;
    insert_agent agent chatroom_id ;;;
    ret (response_success (ChatroomId chatroom_id) None None)
  end.

(** [DELETE /{chatroom_id}] *)
Definition delete_chatroom (chatroom_id : Z) (userinfo : TokenData) : M response :=
  if chatroom_id =? 0 then
    ret (response_error (get_language_content "chatroom_id_is_required"))
  else
    find_chatroom <- read (search_chatrooms_id chatroom_id (uid userinfo)) ;;
    if negb (lk_status find_chatroom) then
      ret (response_error (get_language_content "chatroom_does_not_exist"))
    else
      Chatrooms_update
        [("id", PInt chatroom_id); ("user_id", PInt (uid userinfo))]
        {[ "status" := PInt 3 ]} ;;;
      Apps_update
        [("user_id", PInt (uid userinfo)); ("id", lk_app_id find_chatroom)]
        {[ "status" := PInt 3 ]} ;;;
      Relation_delete [("chatroom_id", PInt chatroom_id)] ;;;
      ret (response_success (Msg (get_language_content "chatroom_delete_success"))
             None None).

(** [GET /{chatroom_id}/details] *)
Definition show_chatroom_details (chatroom_id : Z) (userinfo : TokenData) : M response :=
  find_chatroom <- read (search_chatrooms_id chatroom_id (uid userinfo)) ;;
  if negb (lk_status find_chatroom) then
    ret (response_success NoData
           (Some (get_language_content "chatroom_does_not_exist")) (Some 1))
  else
    chat_info <- read (get_app_by_id (lk_app_id find_chatroom)) ;;
    agent_list <- read (show_chatroom_agent chatroom_id) ;;
    let agent_list :=
      map (λ agent : row,
             if bool_decide (col agent "user_id" = PInt (uid userinfo))
             then <["type" := PStr "my_agent"]> agent
             else <["type" := PStr "more_agent"]> agent) agent_list in
    ret (response_success
           (Details chat_info agent_list (lk_max_round find_chatroom)
              (lk_smart_selection find_chatroom) (lk_chatroom_status find_chatroom))
           None None).

(** [POST /{chatroom_id}/smart_selection] *)
Definition toggle_smart_selection_switch (chatroom_id : Z)
    (data : ToggleSmartSelectionSwitch) (userinfo : TokenData) : M response :=
  if chatroom_id =? 0 then
    ret (response_error (get_language_content "chatroom_id_is_required"))
  else
    find_chatroom <- read (search_chatrooms_id chatroom_id (uid userinfo)) ;;
    if negb (lk_status find_chatroom) then
      ret (response_error (get_language_content "chatroom_does_not_exist"))
    else if none_or_empty (smart_selection data) then
      ret (response_error
             (get_language_content "chatroom_smart_selection_status_is_required"))
    else if negb (in_0_1 (smart_selection data)) then
      ret (response_error
             (get_language_content "chatroom_smart_selection_status_can_only_input"))
    else
      Chatrooms_update [("id", PInt chatroom_id)]
        {[ "smart_selection" := smart_selection data ]} ;;;
      ret (response_success NoData None None).

(** [POST /{chatroom_id}/update_chatroom].  The Python sets are finite
    sets; [list(agents_to_delete)] is the set's enumeration. *)
Definition update_chatroom (chatroom_id : Z) (chat_request : ReqChatroomUpdateSchema)
    (userinfo : TokenData) : M response :=
  let name := name chat_request in
  let description := description chat_request in
  let max_round := max_round chat_request in
  let new_agents := agent chat_request in
  find_chatroom <- read (search_chatrooms_id chatroom_id (uid userinfo)) ;;
  if negb (lk_status find_chatroom) then
    ret (response_error (get_language_content "chatroom_does_not_exist"))
  else if negb (truthy name) then
    ret (response_error (get_language_content "chatroom_name_is_required"))
  else if none_or_empty max_round then
    ret (response_error (get_language_content "chatroom_max_round_is_required"))
  else if list_falsy new_agents || (length new_agents =? 0)%nat then
    ret (response_error (get_language_content "chatroom_agent_is_required"))
  else match check_agent_items new_agents with
  | Some key => ret (response_error (get_language_content key))
  | None =>
    Apps_update
      [("id", lk_app_id find_chatroom); ("team_id", PInt (team_id userinfo));
       ("user_id", PInt (uid userinfo)); ("mode", PInt 5)]
      {[ "name" := name; "description" := description ]} ;;;
    Chatrooms_update [("id", PInt chatroom_id)] {[ "max_round" := max_round ]} ;;;
    existing_agents <- read (get_agents_by_chatroom_id chatroom_id) ;;
    let existing_agent_ids : gset pyval :=
      list_to_set ((λ agent : row, col agent "agent_id") <$> existing_agents) in
    let new_agent_ids : gset pyval :=
      list_to_set ((λ agent, item_get agent "agent_id") <$> new_agents) in
    let agents_to_delete := existing_agent_ids ∖ new_agent_ids in
    let agents_to_add :=
      filter (λ agent, item_get agent "agent_id" ∉ existing_agent_ids) new_agents in
    let agents_to_update :=
      filter (λ agent, item_get agent "agent_id" ∈ existing_agent_ids) new_agents in
    (if bool_decide (agents_to_delete ≠ ∅) then
       let agent_ids := elements agents_to_delete in
       for_each agent_ids (λ agent_id,
         Relation_delete [("agent_id", agent_id); ("chatroom_id", PInt chatroom_id)])
     else ret tt) ;;;
    (if negb (list_falsy agents_to_add)
     then insert_agent agents_to_add chatroom_id else ret tt) ;;;
    (if negb (list_falsy agents_to_update)
     then insert_agent agents_to_update chatroom_id else ret tt) ;;;
    ret (response_success (ChatroomId chatroom_id) None None)
  end.

(** [PUT /{chatroom_id}/agents/{agent_id}/setting] *)
Definition toggle_auto_answer_switch (chatroom_id agent_id : Z)
    (agent_setting : ReqAgentSettingSchema) (userinfo : TokenData) : M response :=
  if chatroom_id =? 0 then
    ret (response_error (get_language_content "chatroom_id_is_required"))
  else
    find_chatroom <- read (search_chatrooms_id chatroom_id (uid userinfo)) ;;
    if negb (lk_status find_chatroom) then
      ret (response_error (get_language_content "chatroom_does_not_exist"))
    else if agent_id =? 0 then
      ret (response_error (get_language_content "chatroom_agent_id_is_required"))
    else
      find_agent <- read (search_agent_id agent_id) ;;
      if negb (bool_decide (is_Some find_agent)) then
        ret (response_error (get_language_content "agent_does_not_exist"))
      else
        let active := active agent_setting in
        if none_or_empty active then
          ret (response_error (get_language_content "chatroom_agent_active_is_required"))
        else if negb (in_0_1 active) then
          ret (response_error
                 (get_language_content "chatroom_agent_active_can_only_input"))
        else
          find_chatroom_agent <-
            read (search_chatroom_agent_relation_id chatroom_id agent_id) ;;
          if negb find_chatroom_agent then
            ret (response_error
                   (get_language_content "chatroom_agent_relation_does_not_exist"))
          else
            let set_active :=
              Relation_update
                [("chatroom_id", PInt chatroom_id); ("agent_id", PInt agent_id)]
                {[ "active" := active ]} ;;;
              ret (response_success NoData None None) in
            if bool_decide (active = PInt 0) then
              agents <- read (get_active_agents_by_chatroom_id chatroom_id) ;;
              if (length agents <=? 1)%nat then
                ret (response_error
                       (get_language_content "chatroom_agent_number_less_than_one"))
              else set_active
            else set_active.

(** [GET /{chatroom_id}/chatroom_message]; in the source this handler is
    a second function called [show_chatroom_details]. *)
Definition chatroom_message (chatroom_id page page_size : Z)
    (userinfo : TokenData) : M response :=
  find_chatroom <- read (search_chatrooms_id chatroom_id (uid userinfo)) ;;
  if negb (lk_status find_chatroom) then
    ret (response_error (get_language_content "chatroom_does_not_exist"))
  else
    chatroom_history_msg <-
      read (history_chatroom_messages chatroom_id page page_size) ;;
    Chatrooms_update [("id", PInt chatroom_id)] {[ "active" := PInt 0 ]} ;;;
    Messages_update [("chatroom_id", PInt chatroom_id)] {[ "is_read" := PInt 1 ]} ;;;
    ret (response_success (Rows chatroom_history_msg) None None).

(** ** Vocabulary of the properties *)

(** An entry that passes the per-item check: a dict that has both
    required keys. *)
Definition well_shaped (it : item) : Prop :=
  match it with
  | NotDict _ => False
  | Dict d => "agent_id" ∈ dom d ∧ "active" ∈ dom d
  end.

(** An agent list that create and update refuse: empty, or with an
    element that is not a dict or lacks one of the two keys. *)
Definition bad_agent_list (agent : list item) : Prop :=
  agent = [] ∨ ∃ it, it ∈ agent ∧ ¬ well_shaped it.

(** The message keys of the validation errors of create and update. *)
Definition validation_errors : list string :=
  [ "chatroom_name_is_required";
    "chatroom_max_round_is_required";
    "chatroom_agent_is_required";
    "chatroom_agent_item_must_be_a_dictionary";
    "chatroom_agent_item_missing_keys" ].

Definition is_validation_error (r : response) : Prop :=
  ∃ key, key ∈ validation_errors ∧ r = response_error key.

(** The [agent_id]s of a request's agent list, and those attached to a
    room in the store. *)
Definition request_agent_ids (agent : list item) : gset pyval :=
  list_to_set ((λ it, item_get it "agent_id") <$> agent).

Definition room_agent_ids (chatroom_id : Z) (d : db) : gset pyval :=
  list_to_set ((λ r : row, col r "agent_id") <$> get_agents_by_chatroom_id chatroom_id d).

(** The [active] value an agent list ends up giving to an agent: that of
    the last entry with this [agent_id]. *)
Definition final_active (agent : list item) (a : pyval) : option pyval :=
  (λ it, item_get it "active") <$>
    last (filter (λ it, item_get it "agent_id" = a) agent).

(** [column_set P k v t t']: table [t'] is table [t] with column [k] set
    to [v] in the rows that satisfy [P], and nothing else changed. *)
Definition column_set (P : row → Prop) (k : string) (v : pyval) (t t' : table) : Prop :=
  next_id t' = next_id t ∧
  Forall2 (λ r r', (P r → r' = <[k := v]> r) ∧ (¬ P r → r' = r)) (rows t) (rows t').

(** The row is a membership of agent [a] in the room. *)
Definition member_of (chatroom_id : Z) (a : pyval) (r : row) : Prop :=
  col r "agent_id" = a ∧ col r "chatroom_id" = PInt chatroom_id.

#[global] Instance member_of_dec cid a r : Decision (member_of cid a r).
Proof. unfold member_of. apply _. Defined.

(** The [agent_id]s attached to a room in a relations table. *)
Definition table_agent_ids (chatroom_id : Z) (t : table) : gset pyval :=
  list_to_set ((λ r : row, col r "agent_id") <$>
                 tbl_select [("chatroom_id", PInt chatroom_id)] t).

(** The membership reconciliation of [update_chatroom], from the read of
    the existing memberships to the last [insert_agent], as a function
    on the relations table. *)
Definition reconcile (chatroom_id : Z) (new_agents : list item) (t : table) : table :=
  let existing_agent_ids := table_agent_ids chatroom_id t in
  let new_agent_ids := request_agent_ids new_agents in
  let agents_to_delete := existing_agent_ids ∖ new_agent_ids in
  let agents_to_add :=
    filter (λ agent, item_get agent "agent_id" ∉ existing_agent_ids) new_agents in
  let agents_to_update :=
    filter (λ agent, item_get agent "agent_id" ∈ existing_agent_ids) new_agents in
  let t1 :=
    foldl (λ t agent_id,
             tbl_delete [("agent_id", agent_id); ("chatroom_id", PInt chatroom_id)] t)
          t (elements agents_to_delete) in
  let t2 := foldl (upsert_agent chatroom_id) t1 agents_to_add in
  foldl (upsert_agent chatroom_id) t2 agents_to_update.

(** What a run of upserts does to a row that is already there: a row of
    the room whose agent occurs in the list gets the agent's final
    [active] value, any other row stays as it is. *)
Definition refresh (chatroom_id : Z) (agent : list item) (r : row) : row :=
  if decide (col r "chatroom_id" = PInt chatroom_id) then
    match final_active agent (col r "agent_id") with
    | Some v => <["active" := v]> r
    | None => r
    end
  else r.

(** A request that passes every check of create (and of update, once
    the room is found). *)
Definition request_accepted (req : ReqChatroomCreateSchema) : Prop :=
  truthy (name req) = true ∧ none_or_empty (max_round req) = false ∧
  agent req ≠ [] ∧ Forall well_shaped (agent req).

(** The invariant of the data model: a room that has memberships has an
    active one. *)
Definition some_agent_active (chatroom_id : Z) (d : db) : Prop :=
  get_agents_by_chatroom_id chatroom_id d ≠ [] →
  get_active_agents_by_chatroom_id chatroom_id d ≠ [].

(** A (room, agent) pair has at most one membership row. *)
Definition unique_memberships (t : table) : Prop :=
  NoDup ((λ r : row, (col r "chatroom_id", col r "agent_id")) <$> rows t).

(** The (room, agent) pairs of the membership rows, in table order. *)
Definition membership_keys (t : table) : list (pyval * pyval) :=
  (λ r : row, (col r "chatroom_id", col r "agent_id")) <$> rows t.

(** The checks of [toggle_auto_answer_switch] that come before the
    last-active-agent guard all pass: the room exists and is the
    caller's, the agent exists, and the agent is a member of the room. *)
Definition setting_reachable (chatroom_id agent_id : Z) (u : TokenData) (d : db) : Prop :=
  chatroom_id ≠ 0 ∧
  lk_status (search_chatrooms_id chatroom_id (uid u) d) = true ∧
  agent_id ≠ 0 ∧
  is_Some (search_agent_id agent_id d) ∧
  search_chatroom_agent_relation_id chatroom_id agent_id d = true.

(** ** Sample requests and stores *)

Definition alice : TokenData := {| uid := 7; team_id := 1 |}.

Definition entry (a v : pyval) : item := Dict {[ "agent_id" := a; "active" := v ]}.

Definition room_request (agent : list item) : ReqChatroomCreateSchema :=
  {| name := PStr "room"; description := PStr "demo"; max_round := PInt 10;
     agent := agent |}.

(** The store after [alice] created a room with agents 1 and 2, both
    active; the agents table knows agents 1, 2 and 3. *)
Definition agents_123 : table :=
  Table [ {[ "id" := PInt 1; "user_id" := PInt 7 ]};
          {[ "id" := PInt 2; "user_id" := PInt 7 ]};
          {[ "id" := PInt 3; "user_id" := PInt 8 ]} ] 4.

Definition db0 : db := Db empty_table empty_table empty_table empty_table agents_123.

Definition db1 : db :=
  (create_chatroom (room_request [entry (PInt 1) (PInt 1); entry (PInt 2) (PInt 1)])
     alice db0).2.

(** [db1] with two unread messages in room 1. *)
Definition db3 : db :=
  set_messages
    (Table [ {[ "id" := PInt 1; "chatroom_id" := PInt 1; "is_read" := PInt 0 ]};
             {[ "id" := PInt 2; "chatroom_id" := PInt 1; "is_read" := PInt 0 ]} ] 3)
    db1.

(** Like [db1], with agent 2 inactive from the start. *)
Definition db2 : db :=
  (create_chatroom (room_request [entry (PInt 1) (PInt 1); entry (PInt 2) (PInt 0)])
     alice db0).2.

(** ** Basic facts about rows, conditions and tables *)

Lemma col_insert (r : row) k k' v :
  col (<[k := v]> r) k' = if decide (k = k') then v else col r k'.
Proof. unfold col. rewrite lookup_insert. by case_decide. Qed.

Lemma singleton_union (r : row) k v : ({[k := v]} : row) ∪ r = <[k := v]> r.
Proof. by rewrite insert_union_singleton_l. Qed.

Lemma matches_true conds r :
  matches conds r = true ↔ ∀ c, c ∈ conds → col r c.1 = c.2.
Proof.
  unfold matches. rewrite forallb_forall. split.
  - intros H c Hc. apply list_elem_of_In in Hc. apply H in Hc.
    by apply bool_decide_eq_true in Hc.
  - intros H c Hc. apply bool_decide_eq_true, H. by apply list_elem_of_In.
Qed.

Lemma missing_keys_empty (d : pydict) :
  required_keys ∖ dom d = ∅ ↔ "agent_id" ∈ dom d ∧ "active" ∈ dom d.
Proof.
  unfold required_keys. split.
  - intros H. split.
    + destruct (decide ("agent_id" ∈ dom d)) as [|Hn]; [done|].
      assert ("agent_id" ∈ ({["agent_id"; "active"]} ∖ dom d : gset string)) as Hin
        by (apply elem_of_difference; split; [set_solver|done]).
      rewrite H in Hin. by apply not_elem_of_empty in Hin.
    + destruct (decide ("active" ∈ dom d)) as [|Hn]; [done|].
      assert ("active" ∈ ({["agent_id"; "active"]} ∖ dom d : gset string)) as Hin
        by (apply elem_of_difference; split; [set_solver|done]).
      rewrite H in Hin. by apply not_elem_of_empty in Hin.
  - intros [H1 H2]. apply set_eq. intros k.
    rewrite elem_of_difference, elem_of_union, !elem_of_singleton.
    split; [|by intros ?%not_elem_of_empty].
    intros [[->| ->] Hn]; done.
Qed.

Lemma check_agent_items_None agent :
  check_agent_items agent = None ↔ Forall well_shaped agent.
Proof.
  induction agent as [|[v|d] rest IH]; simpl.
  - split; [constructor|done].
  - split; [done|]. by inversion 1.
  - case_bool_decide as Hm.
    + split; [done|]. inversion 1 as [|? ? Hd ?]. subst.
      by apply missing_keys_empty in Hd.
    + rewrite IH. apply missing_keys_empty in Hm.
      split; [by constructor|by inversion 1].
Qed.

(** The loop only ever returns one of its two messages. *)
Lemma check_agent_items_Some agent key :
  check_agent_items agent = Some key →
  key = "chatroom_agent_item_must_be_a_dictionary" ∨
  key = "chatroom_agent_item_missing_keys".
Proof.
  induction agent as [|[v|d] rest IH]; simpl; [done|naive_solver|].
  case_bool_decide; naive_solver.
Qed.

Lemma bad_agent_list_rejected agent :
  bad_agent_list agent →
  list_falsy agent || (length agent =? 0)%nat = true ∨
  ∃ key, check_agent_items agent = Some key.
Proof.
  intros [->|(it & Hin & Hbad)]; [by left|]. right.
  destruct (check_agent_items agent) as [key|] eqn:E; [by eexists|].
  apply check_agent_items_None in E.
  rewrite Forall_forall in E. destruct Hbad. by apply E.
Qed.

Ltac run := unfold bind, read, ret, write, get_language_content; simpl.

Lemma create_chatroom_rejects (req : ReqChatroomCreateSchema) u d :
  bad_agent_list (agent req) →
  is_validation_error (create_chatroom req u d).1 ∧ (create_chatroom req u d).2 = d.
Proof.
  intros Hbad. unfold create_chatroom, is_validation_error, validation_errors. run.
  destruct (truthy (name req)); simpl; [|split; [eexists; split; [|done]; set_solver|done]].
  destruct (none_or_empty (max_round req)); simpl;
    [split; [eexists; split; [|done]; set_solver|done]|].
  destruct (bad_agent_list_rejected _ Hbad) as [->|[key Hkey]];
    [split; [eexists; split; [|done]; set_solver|done]|].
  destruct (_ || _); [split; [eexists; split; [|done]; set_solver|done]|].
  rewrite Hkey. simpl. split; [|done]. exists key. split; [|done].
  apply check_agent_items_Some in Hkey as [-> | ->]; set_solver.
Qed.

Lemma update_chatroom_rejects cid (req : ReqChatroomUpdateSchema) u d :
  bad_agent_list (agent req) →
  (update_chatroom cid req u d).2 = d ∧
  if lk_status (search_chatrooms_id cid (uid u) d)
  then is_validation_error (update_chatroom cid req u d).1
  else (update_chatroom cid req u d).1 = response_error "chatroom_does_not_exist".
Proof.
  intros Hbad. unfold update_chatroom, is_validation_error, validation_errors. run.
  destruct (lk_status _); simpl; [|done].
  destruct (truthy (name req)); simpl; [|split; [done|eexists; split; [|done]; set_solver]].
  destruct (none_or_empty (max_round req)); simpl;
    [split; [done|eexists; split; [|done]; set_solver]|].
  destruct (bad_agent_list_rejected _ Hbad) as [->|[key Hkey]];
    [split; [done|eexists; split; [|done]; set_solver]|].
  destruct (_ || _); [split; [done|eexists; split; [|done]; set_solver]|].
  rewrite Hkey. simpl. split; [done|]. exists key. split; [|done].
  apply check_agent_items_Some in Hkey as [-> | ->]; set_solver.
Qed.

(** C6, in the form that holds: a create call, or an update call on an existing
    owned room, whose agent list is empty or has an element that is not
    a dict or lacks [agent_id] or [active], returns one of the
    validation errors; an update call on a room that does not exist (or
    is not the caller's) returns the does-not-exist error instead.  In
    every one of these cases the store is left exactly as it was. *)
Theorem invalid_agent_list_fails_before_any_write
    cid (req : ReqChatroomCreateSchema) u d :
  bad_agent_list (agent req) →
  (is_validation_error (create_chatroom req u d).1 ∧
   (create_chatroom req u d).2 = d) ∧
  ((if lk_status (search_chatrooms_id cid (uid u) d)
    then is_validation_error (update_chatroom cid req u d).1
    else (update_chatroom cid req u d).1 = response_error "chatroom_does_not_exist") ∧
   (update_chatroom cid req u d).2 = d).
Proof.
  intros Hbad. split; [by apply create_chatroom_rejects|].
  destruct (update_chatroom_rejects cid req u d Hbad) as [H1 H2]. by split.
Qed.

Lemma invalid_agent_list_fails_before_any_write_witness :
  bad_agent_list [NotDict (PInt 3)] ∧
  (create_chatroom (room_request [NotDict (PInt 3)]) alice db1).2 = db1 ∧
  (update_chatroom 1 (room_request [NotDict (PInt 3)]) alice db1).2 = db1.
Proof.
  assert (bad_agent_list (agent (room_request [NotDict (PInt 3)]))) as Hbad.
  { right. exists (NotDict (PInt 3)). split; [by left|]. by intros []. }
  split; [exact Hbad|].
  pose proof (invalid_agent_list_fails_before_any_write 1 _ alice db1 Hbad) as H.
  split; [exact (proj2 (proj1 H))|exact (proj2 (proj2 H))].
Defined.

(** C6, as stated, fails for update: on a room that does not exist an
    update with an empty agent list is answered with the does-not-exist
    error, which is not a validation error. *)
Lemma update_missing_room_is_not_a_validation_error :
  bad_agent_list (agent (room_request [])) ∧
  (update_chatroom 1 (room_request []) alice empty_db).1
    = response_error "chatroom_does_not_exist" ∧
  ¬ is_validation_error (update_chatroom 1 (room_request []) alice empty_db).1.
Proof.
  split; [by left|]. split; [reflexivity|].
  intros (key & Hkey & Heq). vm_compute in Heq. injection Heq as <-.
  unfold validation_errors in Hkey.
  repeat (apply elem_of_cons in Hkey as [Hkey|Hkey]; [discriminate Hkey|]).
  by apply elem_of_nil in Hkey.
Qed.

(** C8: on a room that does not exist or is not visible to the caller,
    details answers with a success envelope that carries the
    does-not-exist message and the code 1 (a code that its answer for a
    room that exists never carries), and leaves the store alone; update,
    delete, set_smart_selection, set_agent_active and history answer
    with an error envelope, whose message is does-not-exist unless the
    handler first rejected a zero room id. *)
Theorem details_fails_softly cid u d :
  lk_status (search_chatrooms_id cid (uid u) d) = false →
  show_chatroom_details cid u d
    = (response_success NoData (Some "chatroom_does_not_exist") (Some 1), d) ∧
  success (show_chatroom_details cid u d).1 = true ∧
  (∀ d', lk_status (search_chatrooms_id cid (uid u) d') = true →
     ∃ data, (show_chatroom_details cid u d').1 = response_success data None None) ∧
  (∀ req, update_chatroom cid req u d
            = (response_error "chatroom_does_not_exist", d)) ∧
  (∀ page page_size, chatroom_message cid page page_size u d
            = (response_error "chatroom_does_not_exist", d)) ∧
  delete_chatroom cid u d
    = (response_error (if cid =? 0 then "chatroom_id_is_required"
                       else "chatroom_does_not_exist"), d) ∧
  (∀ data, toggle_smart_selection_switch cid data u d
    = (response_error (if cid =? 0 then "chatroom_id_is_required"
                       else "chatroom_does_not_exist"), d)) ∧
  (∀ aid setting, toggle_auto_answer_switch cid aid setting u d
    = (response_error (if cid =? 0 then "chatroom_id_is_required"
                       else "chatroom_does_not_exist"), d)).
Proof.
  intros Hno.
  unfold show_chatroom_details, update_chatroom, chatroom_message, delete_chatroom,
    toggle_smart_selection_switch, toggle_auto_answer_switch.
  run. rewrite Hno. simpl. repeat split.
  - intros d' H. rewrite H. simpl. by eexists.
  - destruct (cid =? 0); [done|]. by rewrite Hno.
  - intros. destruct (cid =? 0); [done|]. by rewrite Hno.
  - intros. destruct (cid =? 0); [done|]. by rewrite Hno.
Qed.

Lemma details_fails_softly_witness :
  show_chatroom_details 5 alice db1
    = (response_success NoData (Some "chatroom_does_not_exist") (Some 1), db1).
Proof. apply (details_fails_softly 5 alice db1). reflexivity. Defined.

(** ** The effect of the table statements *)

Arguments matches : simpl never.
Arguments tbl_insert : simpl never.
Arguments tbl_update : simpl never.
Arguments tbl_delete : simpl never.
Arguments tbl_select : simpl never.
Arguments upsert_agent : simpl never.
Arguments search_chatrooms_id : simpl never.
Arguments search_agent_id : simpl never.
Arguments search_chatroom_agent_relation_id : simpl never.
Arguments get_agents_by_chatroom_id : simpl never.
Arguments get_active_agents_by_chatroom_id : simpl never.
Arguments history_chatroom_messages : simpl never.

Lemma matches_one c v r : matches [(c, v)] r = bool_decide (col r c = v).
Proof. unfold matches. simpl. by rewrite andb_true_r. Qed.

Lemma matches_two c1 v1 c2 v2 r :
  matches [(c1, v1); (c2, v2)] r
  = bool_decide (col r c1 = v1) && bool_decide (col r c2 = v2).
Proof. unfold matches. simpl. by rewrite andb_true_r. Qed.

Lemma matches_iff conds r : matches conds r ↔ Forall (λ c : cond, col r c.1 = c.2) conds.
Proof.
  rewrite Is_true_true, matches_true, Forall_forall. done.
Qed.

(** An update of one column is [column_set] on the rows that satisfy the
    conditions. *)
Lemma tbl_update_column_set conds k v t :
  column_set (λ r, matches conds r) k v t (tbl_update conds {[k := v]} t).
Proof.
  split; [done|]. simpl. induction (rows t) as [|r l IH]; simpl; [constructor|].
  constructor; [|done]. rewrite singleton_union.
  destruct (matches conds r); simpl; split; naive_solver.
Qed.

Lemma column_set_ext (P Q : row → Prop) k v t t' :
  (∀ r, r ∈ rows t → P r ↔ Q r) → column_set P k v t t' → column_set Q k v t t'.
Proof.
  intros HPQ [Hn HF]. split; [done|].
  revert HPQ. induction HF as [|r r' l l' [H1 H2] HF IH]; intros HPQ; constructor.
  - split; intros HQ; [apply H1|apply H2]; rewrite HPQ; [done|by left|done|by left].
  - apply IH. intros r0 Hr0. apply HPQ. by right.
Qed.

(** After [column_set], every row that satisfied [P] (and still does, as
    far as the columns other than [k] can tell) holds [v] in column [k]. *)
Lemma column_set_elem P k v t t' r' :
  column_set P k v t t' → r' ∈ rows t' →
  ∃ r, r ∈ rows t ∧ (P r → r' = <[k := v]> r) ∧ (¬ P r → r' = r).
Proof.
  intros [_ HF] Hin. induction HF as [|r r0 l l' [H1 H2] HF IH]; [by apply elem_of_nil in Hin|].
  apply elem_of_cons in Hin as [->|Hin].
  - exists r. split; [by left|done].
  - destruct (IH Hin) as (r1 & Hr1 & Hc). exists r1. split; [by right|done].
Qed.

Lemma column_set_elem_rev P k v t t' r :
  column_set P k v t t' → r ∈ rows t →
  (P r → <[k := v]> r ∈ rows t') ∧ (¬ P r → r ∈ rows t').
Proof.
  intros [_ HF] Hin. induction HF as [|r0 r' l l' [H1 H2] HF IH]; [by apply elem_of_nil in Hin|].
  apply elem_of_cons in Hin as [->|Hin].
  - split; intros HP; [rewrite <- (H1 HP)|rewrite <- (H2 HP)]; by left.
  - destruct (IH Hin) as [IH1 IH2]. split; intros HP; right; auto.
Qed.

Lemma column_set_holds (P : row → Prop) `{∀ r, Decision (P r)} k v t t' r' :
  (∀ r, P (<[k := v]> r) ↔ P r) →
  column_set P k v t t' → r' ∈ rows t' → P r' → col r' k = v.
Proof.
  intros Hind Hset Hin HP.
  destruct (column_set_elem _ _ _ _ _ _ Hset Hin) as (r & _ & H1 & H2).
  destruct (decide (P r)) as [Hr|Hr].
  - rewrite (H1 Hr), col_insert. by case_decide.
  - rewrite (H2 Hr) in HP. done.
Qed.

Lemma column_set_present (P : row → Prop) k v t t' r :
  (∀ r, P (<[k := v]> r) ↔ P r) →
  column_set P k v t t' → r ∈ rows t → P r →
  ∃ r', r' ∈ rows t' ∧ P r' ∧ col r' k = v.
Proof.
  intros Hind Hset Hin HP.
  destruct (column_set_elem_rev _ _ _ _ _ _ Hset Hin) as [H1 _].
  exists (<[k := v]> r). split; [auto|]. split; [by apply Hind|].
  rewrite col_insert. by case_decide.
Qed.

Lemma tbl_select_elem conds t r :
  r ∈ tbl_select conds t ↔ r ∈ rows t ∧ matches conds r = true.
Proof.
  unfold tbl_select. rewrite !list_elem_of_In, filter_In. done.
Qed.

(** What a successful room lookup stands for: a row of the rooms table
    with this id, owned by the caller and not soft-deleted; the lookup
    reports that row's columns. *)
Lemma matches_three c1 v1 c2 v2 c3 v3 r :
  matches [(c1, v1); (c2, v2); (c3, v3)] r = true ↔
  col r c1 = v1 ∧ col r c2 = v2 ∧ col r c3 = v3.
Proof.
  unfold matches. simpl.
  rewrite !andb_true_iff, !bool_decide_eq_true. tauto.
Qed.

Lemma search_chatrooms_id_found cid uid d :
  lk_status (search_chatrooms_id cid uid d) = true →
  ∃ r, r ∈ rows (chatrooms d) ∧ col r "id" = PInt cid ∧
       col r "user_id" = PInt uid ∧ col r "status" = PInt 1 ∧
       lk_app_id (search_chatrooms_id cid uid d) = col r "app_id".
Proof.
  unfold search_chatrooms_id.
  destruct (tbl_select _ _) as [|r l] eqn:E; simpl; [done|]. intros _.
  assert (r ∈ tbl_select [("id", PInt cid); ("user_id", PInt uid); ("status", PInt 1)]
                (chatrooms d)) as Hin by (rewrite E; by left).
  apply tbl_select_elem in Hin as [Hin Hm]. apply matches_three in Hm.
  exists r. tauto.
Qed.

Lemma search_chatrooms_id_missing cid uid d :
  lk_status (search_chatrooms_id cid uid d) = false ↔
  ∀ r, r ∈ rows (chatrooms d) → col r "id" = PInt cid →
       col r "user_id" = PInt uid → col r "status" ≠ PInt 1.
Proof.
  unfold search_chatrooms_id.
  destruct (tbl_select _ _) as [|r l] eqn:E; simpl; split; try done.
  - intros _ r Hin H1 H2 H3.
    assert (r ∈ tbl_select [("id", PInt cid); ("user_id", PInt uid); ("status", PInt 1)]
                  (chatrooms d)) as Hsel.
    { apply tbl_select_elem. split; [done|]. by apply matches_three. }
    rewrite E in Hsel. by apply elem_of_nil in Hsel.
  - intros H. exfalso.
    assert (r ∈ tbl_select [("id", PInt cid); ("user_id", PInt uid); ("status", PInt 1)]
                  (chatrooms d)) as Hin by (rewrite E; by left).
    apply tbl_select_elem in Hin as [Hin Hm]. apply matches_three in Hm.
    destruct Hm as (H1 & H2 & H3). by apply (H r Hin).
Qed.

Ltac store_simpl :=
  unfold set_apps, set_chatrooms, set_relations, set_messages;
  cbn [fst snd apps chatrooms relations messages agents].

Lemma chatroom_message_found cid page page_size u d :
  lk_status (search_chatrooms_id cid (uid u) d) = true →
  chatroom_message cid page page_size u d =
  (response_success (Rows (history_chatroom_messages cid page page_size d)) None None,
   set_messages
     (tbl_update [("chatroom_id", PInt cid)] {["is_read" := PInt 1]} (messages d))
     (set_chatrooms
        (tbl_update [("id", PInt cid)] {["active" := PInt 0]} (chatrooms d)) d)).
Proof.
  intros Hok. unfold chatroom_message, bind, read, ret, write.
  rewrite Hok. reflexivity.
Qed.

Lemma tbl_update_one_column c w k v t :
  column_set (λ r, col r c = w) k v t (tbl_update [(c, w)] {[k := v]} t).
Proof.
  eapply column_set_ext; [|apply tbl_update_column_set].
  intros r _. cbv beta. rewrite matches_one. apply bool_decide_spec.
Qed.

(** C5: a history call on an existing owned room, whatever the page and
    the page size, returns the requested page, sets the room's [active]
    column to 0 and sets [is_read] to 1 in every message row of the
    room, and changes nothing else in the store. *)
Theorem history_marks_room_viewed cid page page_size u d :
  lk_status (search_chatrooms_id cid (uid u) d) = true →
  let out := chatroom_message cid page page_size u d in
  out.1 = response_success
            (Rows (history_chatroom_messages cid page page_size d)) None None ∧
  (∃ r, r ∈ rows (chatrooms out.2) ∧ col r "id" = PInt cid ∧
        col r "active" = PInt 0) ∧
  (∀ r, r ∈ rows (chatrooms out.2) → col r "id" = PInt cid →
        col r "active" = PInt 0) ∧
  (∀ r, r ∈ rows (messages out.2) → col r "chatroom_id" = PInt cid →
        col r "is_read" = PInt 1) ∧
  column_set (λ r, col r "id" = PInt cid) "active" (PInt 0)
    (chatrooms d) (chatrooms out.2) ∧
  column_set (λ r, col r "chatroom_id" = PInt cid) "is_read" (PInt 1)
    (messages d) (messages out.2) ∧
  apps out.2 = apps d ∧ relations out.2 = relations d ∧ agents out.2 = agents d.
Proof.
  intros Hok out. subst out. rewrite chatroom_message_found by done. store_simpl.
  pose proof (tbl_update_one_column "id" (PInt cid) "active" (PInt 0) (chatrooms d))
    as Hrooms.
  pose proof (tbl_update_one_column "chatroom_id" (PInt cid) "is_read" (PInt 1)
                (messages d)) as Hmsgs.
  split; [done|]. split.
  { destruct (search_chatrooms_id_found _ _ _ Hok) as (r & Hin & Hid & _).
    eapply (column_set_present _ _ _ _ _ r); [|exact Hrooms|done|done].
    intros r0. cbv beta. by rewrite col_insert. }
  split.
  { intros r Hin Hid.
    eapply (column_set_holds (λ r, col r "id" = PInt cid) _ _ _ _ r);
      [|exact Hrooms|done|done].
    intros r0. cbv beta. by rewrite col_insert. }
  split.
  { intros r Hin Hid.
    eapply (column_set_holds (λ r, col r "chatroom_id" = PInt cid) _ _ _ _ r);
      [|exact Hmsgs|done|done].
    intros r0. cbv beta. by rewrite col_insert. }
  done.
Qed.

(** Page 99 of a room with two messages is empty; the call still marks
    both messages read and the room viewed. *)
Lemma history_marks_room_viewed_witness :
  (chatroom_message 1 99 10 alice db3).1 = response_success (Rows []) None None ∧
  (∀ r, r ∈ rows (messages (chatroom_message 1 99 10 alice db3).2) →
        col r "chatroom_id" = PInt 1 → col r "is_read" = PInt 1) ∧
  (∀ r, r ∈ rows (chatrooms (chatroom_message 1 99 10 alice db3).2) →
        col r "id" = PInt 1 → col r "active" = PInt 0).
Proof.
  assert (lk_status (search_chatrooms_id 1 (uid alice) db3) = true) as Hok
    by reflexivity.
  pose proof (history_marks_room_viewed 1 99 10 alice db3 Hok) as H.
  cbv zeta in H. destruct H as (Hresp & _ & Hroom & Hmsgs & _).
  exact (conj Hresp (conj Hmsgs Hroom)).
Defined.

Lemma tbl_update_two_columns c1 w1 c2 w2 k v t :
  column_set (λ r, col r c1 = w1 ∧ col r c2 = w2) k v t
    (tbl_update [(c1, w1); (c2, w2)] {[k := v]} t).
Proof.
  eapply column_set_ext; [|apply tbl_update_column_set].
  intros r _. cbv beta. rewrite matches_two, andb_True, !bool_decide_spec. done.
Qed.

Lemma tbl_delete_elem conds t r :
  r ∈ rows (tbl_delete conds t) ↔ r ∈ rows t ∧ matches conds r = false.
Proof.
  unfold tbl_delete. cbn [rows].
  rewrite !list_elem_of_In, filter_In, negb_true_iff. done.
Qed.

Lemma tbl_select_nil conds t :
  tbl_select conds t = [] ↔ ∀ r, r ∈ rows t → matches conds r = false.
Proof.
  split.
  - intros E r Hin. destruct (matches conds r) eqn:Hm; [|done].
    assert (r ∈ tbl_select conds t) as H by by apply tbl_select_elem.
    rewrite E in H. by apply elem_of_nil in H.
  - intros H. destruct (tbl_select conds t) as [|r l] eqn:E; [done|].
    assert (r ∈ tbl_select conds t) as Hin by (rewrite E; by left).
    apply tbl_select_elem in Hin as [Hin Hm]. rewrite (H r Hin) in Hm. done.
Qed.

Lemma tbl_select_delete conds t : tbl_select conds (tbl_delete conds t) = [].
Proof.
  apply tbl_select_nil. intros r Hin. by apply tbl_delete_elem in Hin as [_ ?].
Qed.

Lemma delete_chatroom_found cid u d :
  cid ≠ 0 →
  lk_status (search_chatrooms_id cid (uid u) d) = true →
  delete_chatroom cid u d =
  (response_success (Msg "chatroom_delete_success") None None,
   set_relations (tbl_delete [("chatroom_id", PInt cid)] (relations d))
     (set_apps
        (tbl_update
           [("user_id", PInt (uid u));
            ("id", lk_app_id (search_chatrooms_id cid (uid u) d))]
           {["status" := PInt 3]} (apps d))
        (set_chatrooms
           (tbl_update [("id", PInt cid); ("user_id", PInt (uid u))]
              {["status" := PInt 3]} (chatrooms d)) d))).
Proof.
  intros Hcid Hok. unfold delete_chatroom, bind, read, ret, write.
  apply Z.eqb_neq in Hcid. rewrite Hcid, Hok. reflexivity.
Qed.

(** C7: a delete call on an existing owned room sets the status of the
    caller's room row to 3, sets the status of the application the room
    points to (the caller's, as create made it) to 3, removes every
    membership row of the room and no other, and leaves the message
    table as it was; afterwards the room is no longer found. *)
Theorem delete_is_soft_for_room_hard_for_memberships cid u d :
  cid ≠ 0 →
  lk_status (search_chatrooms_id cid (uid u) d) = true →
  let app := lk_app_id (search_chatrooms_id cid (uid u) d) in
  let out := delete_chatroom cid u d in
  out.1 = response_success (Msg "chatroom_delete_success") None None ∧
  (∃ r, r ∈ rows (chatrooms out.2) ∧ col r "id" = PInt cid ∧
        col r "user_id" = PInt (uid u) ∧ col r "app_id" = app ∧
        col r "status" = PInt 3) ∧
  column_set (λ r, col r "id" = PInt cid ∧ col r "user_id" = PInt (uid u))
    "status" (PInt 3) (chatrooms d) (chatrooms out.2) ∧
  column_set (λ r, col r "user_id" = PInt (uid u) ∧ col r "id" = app)
    "status" (PInt 3) (apps d) (apps out.2) ∧
  ((∀ a, a ∈ rows (apps d) → col a "id" = app → col a "user_id" = PInt (uid u)) →
   ∀ a, a ∈ rows (apps out.2) → col a "id" = app → col a "status" = PInt 3) ∧
  get_agents_by_chatroom_id cid out.2 = [] ∧
  (∀ r, r ∈ rows (relations out.2) ↔
        r ∈ rows (relations d) ∧ col r "chatroom_id" ≠ PInt cid) ∧
  messages out.2 = messages d ∧
  lk_status (search_chatrooms_id cid (uid u) out.2) = false.
Proof.
  intros Hcid Hok app out. subst app out.
  rewrite delete_chatroom_found by done. store_simpl.
  set (app := lk_app_id (search_chatrooms_id cid (uid u) d)).
  pose proof (tbl_update_two_columns "id" (PInt cid) "user_id" (PInt (uid u))
                "status" (PInt 3) (chatrooms d)) as Hrooms.
  pose proof (tbl_update_two_columns "user_id" (PInt (uid u)) "id" app
                "status" (PInt 3) (apps d)) as Happs.
  assert (∀ r, r ∈ rows (tbl_update [("id", PInt cid); ("user_id", PInt (uid u))]
                           {["status" := PInt 3]} (chatrooms d)) →
               col r "id" = PInt cid → col r "user_id" = PInt (uid u) →
               col r "status" = PInt 3) as Hstatus.
  { intros r Hin H1 H2.
    eapply (column_set_holds
              (λ r, col r "id" = PInt cid ∧ col r "user_id" = PInt (uid u)) _ _ _ _ r);
      [|exact Hrooms|done|done].
    intros r0. cbv beta. by rewrite !col_insert. }
  split; [done|]. split.
  { destruct (search_chatrooms_id_found _ _ _ Hok) as (r & Hin & Hid & Hu & _ & Happ).
    destruct (column_set_elem_rev _ _ _ _ _ _ Hrooms Hin) as [H1 _].
    exists (<["status" := PInt 3]> r). split; [by apply H1|].
    rewrite !col_insert. simpl. unfold app. by rewrite Happ. }
  split; [done|]. split; [done|]. split.
  { intros Hown a Hin Hid.
    destruct (column_set_elem _ _ _ _ _ _ Happs Hin) as (a0 & Hin0 & H1 & H2).
    destruct (decide (col a0 "user_id" = PInt (uid u) ∧ col a0 "id" = app)) as [Ha|Ha].
    - rewrite (H1 Ha), col_insert. by case_decide.
    - rewrite (H2 Ha) in Hid |- *. destruct Ha. split; [|done]. by apply Hown. }
  split.
  { unfold get_agents_by_chatroom_id. store_simpl. apply tbl_select_delete. }
  split.
  { intros r. rewrite tbl_delete_elem, matches_one, bool_decide_eq_false. done. }
  split; [done|].
  apply search_chatrooms_id_missing. store_simpl.
  intros r Hin H1 H2. by rewrite (Hstatus r Hin H1 H2).
Qed.

Lemma delete_is_soft_for_room_hard_for_memberships_witness :
  get_agents_by_chatroom_id 1 (delete_chatroom 1 alice db3).2 = [] ∧
  messages (delete_chatroom 1 alice db3).2 = messages db3 ∧
  (∀ a, a ∈ rows (apps (delete_chatroom 1 alice db3).2) → col a "id" = PInt 1 →
        col a "status" = PInt 3) ∧
  lk_status (search_chatrooms_id 1 (uid alice) (delete_chatroom 1 alice db3).2) = false.
Proof.
  assert (1 ≠ 0) as Hid by lia.
  assert (lk_status (search_chatrooms_id 1 (uid alice) db3) = true) as Hok
    by reflexivity.
  pose proof (delete_is_soft_for_room_hard_for_memberships 1 alice db3 Hid Hok) as H.
  cbv zeta in H.
  destruct H as (_ & _ & _ & _ & Happ & Hrel & _ & Hmsg & Hgone).
  refine (conj Hrel (conj Hmsg (conj (Happ _) Hgone))).
  intros a Ha _. vm_compute in Ha.
  apply elem_of_cons in Ha as [->|Ha]; [reflexivity|].
  by apply elem_of_nil in Ha.
Defined.

(** ** The last-active-agent guard *)

Lemma toggle_auto_answer_switch_blocked cid aid u d :
  setting_reachable cid aid u d →
  (length (get_active_agents_by_chatroom_id cid d) ≤ 1)%nat →
  toggle_auto_answer_switch cid aid {| active := PInt 0 |} u d
  = (response_error "chatroom_agent_number_less_than_one", d).
Proof.
  intros (Hcid & Hok & Haid & Hagent & Hrel) Hlen.
  unfold toggle_auto_answer_switch, bind, read, ret, write.
  apply Z.eqb_neq in Hcid, Haid. rewrite Hcid, Hok. cbn [negb]. rewrite Haid.
  rewrite (bool_decide_eq_true_2 _ Hagent). cbn [negb active].
  change (none_or_empty (PInt 0)) with false. change (in_0_1 (PInt 0)) with true.
  cbn [negb]. cbv beta. rewrite Hrel. cbn [negb].
  rewrite (bool_decide_eq_true_2 (PInt 0 = PInt 0)) by done. cbv beta.
  apply Nat.leb_le in Hlen. by rewrite Hlen.
Qed.

Lemma toggle_auto_answer_switch_sets cid aid v u d :
  setting_reachable cid aid u d →
  v = PInt 1 ∨ (v = PInt 0 ∧ (2 ≤ length (get_active_agents_by_chatroom_id cid d))%nat) →
  toggle_auto_answer_switch cid aid {| active := v |} u d
  = (response_success NoData None None,
     set_relations
       (tbl_update [("chatroom_id", PInt cid); ("agent_id", PInt aid)]
          {["active" := v]} (relations d)) d).
Proof.
  intros (Hcid & Hok & Haid & Hagent & Hrel) Hv.
  unfold toggle_auto_answer_switch, bind, read, ret, write.
  apply Z.eqb_neq in Hcid, Haid. rewrite Hcid, Hok. cbn [negb]. rewrite Haid.
  rewrite (bool_decide_eq_true_2 _ Hagent). cbn [negb active].
  destruct Hv as [->|[-> Hlen]].
  - change (none_or_empty (PInt 1)) with false. change (in_0_1 (PInt 1)) with true.
    cbn [negb]. cbv beta. rewrite Hrel. cbn [negb].
    rewrite (bool_decide_eq_false_2 (PInt 1 = PInt 0)) by done. reflexivity.
  - change (none_or_empty (PInt 0)) with false. change (in_0_1 (PInt 0)) with true.
    cbn [negb]. cbv beta. rewrite Hrel. cbn [negb].
    rewrite (bool_decide_eq_true_2 (PInt 0 = PInt 0)) by done. cbv beta.
    apply Nat.leb_gt in Hlen. by rewrite Hlen.
Qed.

Lemma relation_present cid aid d :
  search_chatroom_agent_relation_id cid aid d = true →
  ∃ r, r ∈ rows (relations d) ∧ col r "chatroom_id" = PInt cid ∧
       col r "agent_id" = PInt aid.
Proof.
  unfold search_chatroom_agent_relation_id. rewrite existsb_exists.
  intros (r & Hin & Hm). exists r. apply list_elem_of_In in Hin.
  rewrite matches_two, andb_true_iff, !bool_decide_eq_true in Hm. tauto.
Qed.

(** C3: a set_agent_active call with [active = 0] on an existing owned
    room, an existing agent and an existing membership fails with the
    at-least-one-agent error and leaves the store (so the membership
    row) unchanged when the room has exactly one active membership; when
    the room has two or more it succeeds, sets the [active] column of
    that membership to 0 and changes nothing else. *)
Theorem deactivation_guard cid aid u d :
  setting_reachable cid aid u d →
  let out := toggle_auto_answer_switch cid aid {| active := PInt 0 |} u d in
  (length (get_active_agents_by_chatroom_id cid d) = 1%nat →
   out = (response_error "chatroom_agent_number_less_than_one", d)) ∧
  ((2 ≤ length (get_active_agents_by_chatroom_id cid d))%nat →
   out.1 = response_success NoData None None ∧
   (∃ r, r ∈ rows (relations out.2) ∧ col r "chatroom_id" = PInt cid ∧
         col r "agent_id" = PInt aid ∧ col r "active" = PInt 0) ∧
   (∀ r, r ∈ rows (relations out.2) → col r "chatroom_id" = PInt cid →
         col r "agent_id" = PInt aid → col r "active" = PInt 0) ∧
   column_set (λ r, col r "chatroom_id" = PInt cid ∧ col r "agent_id" = PInt aid)
     "active" (PInt 0) (relations d) (relations out.2) ∧
   apps out.2 = apps d ∧ chatrooms out.2 = chatrooms d ∧
   messages out.2 = messages d ∧ agents out.2 = agents d).
Proof.
  intros Hpre out. subst out. split.
  - intros Hone. apply toggle_auto_answer_switch_blocked; [done|lia].
  - intros Htwo. rewrite (toggle_auto_answer_switch_sets cid aid (PInt 0)) by auto.
    store_simpl.
    pose proof (tbl_update_two_columns "chatroom_id" (PInt cid) "agent_id" (PInt aid)
                  "active" (PInt 0) (relations d)) as Hset.
    split; [done|]. split.
    { destruct Hpre as (_ & _ & _ & _ & Hrel).
      destruct (relation_present _ _ _ Hrel) as (r & Hin & H1 & H2).
      assert (∀ r0 : row,
                (col (<["active" := PInt 0]> r0) "chatroom_id" = PInt cid ∧
                 col (<["active" := PInt 0]> r0) "agent_id" = PInt aid) ↔
                (col r0 "chatroom_id" = PInt cid ∧ col r0 "agent_id" = PInt aid))
        as Hind by (intros r0; by rewrite !col_insert).
      destruct (column_set_present _ _ _ _ _ r Hind Hset Hin (conj H1 H2))
        as (r' & Hin' & [? ?] & ?).
      by exists r'. }
    split; [|done].
    intros r Hin H1 H2.
    eapply (column_set_holds
              (λ r, col r "chatroom_id" = PInt cid ∧ col r "agent_id" = PInt aid)
              _ _ _ _ r); [|exact Hset|done|done].
    intros r0. cbv beta. by rewrite !col_insert.
Qed.

Lemma deactivation_guard_witness :
  (toggle_auto_answer_switch 1 2 {| active := PInt 0 |} alice db1).1
    = response_success NoData None None ∧
  toggle_auto_answer_switch 1 1 {| active := PInt 0 |} alice db2
    = (response_error "chatroom_agent_number_less_than_one", db2).
Proof.
  assert (setting_reachable 1 2 alice db1) as H1.
  { repeat split; [lia|lia|by eexists]. }
  assert (setting_reachable 1 1 alice db2) as H2.
  { repeat split; [lia|lia|by eexists]. }
  split.
  - apply (proj2 (deactivation_guard 1 2 alice db1 H1)). vm_compute. lia.
  - apply (proj1 (deactivation_guard 1 1 alice db2 H2)). reflexivity.
Defined.

(** C10: the guard looks only at the number of active memberships of
    the room, not at the membership it is about to change: a
    set_agent_active call with [active = 0] that gets as far as the
    guard is refused with the at-least-one-agent error exactly when the
    room has at most one active membership, and then changes nothing.
    The target membership's own [active] value plays no part, so the
    call is refused also when the target is already inactive. *)
Theorem guard_ignores_target_state cid aid u d :
  setting_reachable cid aid u d →
  let out := toggle_auto_answer_switch cid aid {| active := PInt 0 |} u d in
  ((length (get_active_agents_by_chatroom_id cid d) ≤ 1)%nat →
   out = (response_error "chatroom_agent_number_less_than_one", d)) ∧
  (out.1 = response_error "chatroom_agent_number_less_than_one" ↔
   (length (get_active_agents_by_chatroom_id cid d) ≤ 1)%nat).
Proof.
  intros Hpre out. subst out. split.
  - by apply toggle_auto_answer_switch_blocked.
  - split.
    + intros Hresp.
      destruct (decide (length (get_active_agents_by_chatroom_id cid d) ≤ 1)%nat)
        as [|Hmany]; [done|].
      rewrite (toggle_auto_answer_switch_sets cid aid (PInt 0)) in Hresp;
        [discriminate Hresp|done|].
      right. split; [done|lia].
    + intros Hlen. by rewrite toggle_auto_answer_switch_blocked.
Qed.

(** In [db2] agent 2 is already inactive and agent 1 is the only active
    member: deactivating agent 2 again is refused. *)
Lemma guard_ignores_target_state_witness :
  (∀ r, r ∈ rows (relations db2) → col r "agent_id" = PInt 2 →
        col r "active" = PInt 0) ∧
  toggle_auto_answer_switch 1 2 {| active := PInt 0 |} alice db2
  = (response_error "chatroom_agent_number_less_than_one", db2).
Proof.
  split.
  - intros r Hin. vm_compute in Hin.
    repeat (apply elem_of_cons in Hin as [->|Hin]; [by vm_compute|]).
    by apply elem_of_nil in Hin.
  - apply (proj1 (guard_ignores_target_state 1 2 alice db2
                    ltac:(repeat split; [lia|lia|by eexists]))).
    vm_compute. lia.
Defined.

(** ** Upserts *)

Section upsert.
Variable cid : Z.

Local Abbreviation member_of := (member_of cid).

Lemma matches_member a r :
  matches [("agent_id", a); ("chatroom_id", PInt cid)] r = true ↔ member_of a r.
Proof.
  unfold member_of. rewrite matches_two, andb_true_iff, !bool_decide_eq_true. done.
Qed.

Lemma member_of_insert_active a v r : member_of a (<["active" := v]> r) ↔ member_of a r.
Proof. unfold member_of. by rewrite !col_insert. Qed.

Lemma elem_of_table_agent_ids a t :
  a ∈ table_agent_ids cid t ↔ ∃ r, r ∈ rows t ∧ member_of a r.
Proof.
  unfold table_agent_ids, member_of.
  rewrite elem_of_list_to_set, list_elem_of_fmap. split.
  - intros (r & -> & Hin). apply tbl_select_elem in Hin as [Hin Hm].
    rewrite matches_one, bool_decide_eq_true in Hm. by exists r.
  - intros (r & Hin & <- & Hroom). exists r. split; [done|].
    apply tbl_select_elem. split; [done|].
    by rewrite matches_one, bool_decide_eq_true.
Qed.

Lemma existsb_member a t :
  existsb (matches [("agent_id", a); ("chatroom_id", PInt cid)]) (rows t) = true
  ↔ a ∈ table_agent_ids cid t.
Proof.
  rewrite existsb_exists, elem_of_table_agent_ids.
  split; intros (r & Hin & Hm); exists r.
  - apply list_elem_of_In in Hin. by apply matches_member in Hm.
  - apply list_elem_of_In in Hin. by apply matches_member in Hm.
Qed.

(** The two branches of an upsert. *)
Lemma upsert_agent_existing t it :
  item_get it "agent_id" ∈ table_agent_ids cid t →
  column_set (member_of (item_get it "agent_id")) "active" (item_get it "active")
    t (upsert_agent cid t it).
Proof.
  intros Hin. unfold upsert_agent. apply existsb_member in Hin. rewrite Hin.
  eapply column_set_ext; [|apply tbl_update_column_set].
  intros r _. cbv beta. rewrite Is_true_true. apply matches_member.
Qed.

Lemma upsert_agent_new t it :
  item_get it "agent_id" ∉ table_agent_ids cid t →
  ∃ r, upsert_agent cid t it = Table (rows t ++ [r]) (next_id t + 1) ∧
       member_of (item_get it "agent_id") r ∧
       r !! "active" = Some (item_get it "active").
Proof.
  intros Hin. unfold upsert_agent. rewrite <- existsb_member in Hin.
  apply not_true_is_false in Hin. rewrite Hin.
  eexists. split; [reflexivity|]. split; [|done].
  unfold member_of. rewrite !col_insert. done.
Qed.

(** What one upsert leaves in the table. *)
Lemma upsert_agent_rows t it r' :
  r' ∈ rows (upsert_agent cid t it) →
  (r' ∈ rows t ∧ ¬ member_of (item_get it "agent_id") r') ∨
  (member_of (item_get it "agent_id") r' ∧
   r' !! "active" = Some (item_get it "active")).
Proof.
  intros Hin'.
  destruct (decide (item_get it "agent_id" ∈ table_agent_ids cid t)) as [Hin|Hin].
  - destruct (column_set_elem _ _ _ _ _ _ (upsert_agent_existing _ _ Hin) Hin')
      as (r & Hr & H1 & H2).
    destruct (decide (member_of (item_get it "agent_id") r)) as [Hm|Hm].
    + right. rewrite (H1 Hm). split; [by apply member_of_insert_active|].
      by rewrite lookup_insert_eq.
    + left. rewrite (H2 Hm). done.
  - destruct (upsert_agent_new _ _ Hin) as (r & Heq & Hm & Hact).
    rewrite Heq in Hin'. cbn [rows] in Hin'.
    apply elem_of_app in Hin' as [Hin'|Hin'].
    + left. split; [done|]. intros Hm'. apply Hin.
      apply elem_of_table_agent_ids. by exists r'.
    + apply list_elem_of_singleton in Hin' as ->. by right.
Qed.

Lemma upsert_agent_keeps t it r :
  r ∈ rows t →
  ∃ r', r' ∈ rows (upsert_agent cid t it) ∧
        col r' "agent_id" = col r "agent_id" ∧
        col r' "chatroom_id" = col r "chatroom_id" ∧
        (¬ member_of (item_get it "agent_id") r → r' = r).
Proof.
  intros Hr.
  destruct (decide (item_get it "agent_id" ∈ table_agent_ids cid t)) as [Hin|Hin].
  - destruct (column_set_elem_rev _ _ _ _ _ _ (upsert_agent_existing _ _ Hin) Hr)
      as [H1 H2].
    destruct (decide (member_of (item_get it "agent_id") r)) as [Hm|Hm].
    + eexists. split; [by apply H1|]. rewrite !col_insert. done.
    + exists r. split; [by apply H2|done].
  - destruct (upsert_agent_new _ _ Hin) as (r0 & Heq & _).
    exists r. rewrite Heq. cbn [rows]. split; [|done].
    apply elem_of_app. by left.
Qed.

Lemma upsert_agent_adds t it :
  item_get it "agent_id" ∈ table_agent_ids cid (upsert_agent cid t it).
Proof.
  apply elem_of_table_agent_ids.
  destruct (decide (item_get it "agent_id" ∈ table_agent_ids cid t)) as [Hin|Hin].
  - pose proof Hin as Hin0.
    apply elem_of_table_agent_ids in Hin as (r & Hr & Hm).
    destruct (column_set_elem_rev _ _ _ _ _ _ (upsert_agent_existing _ _ Hin0) Hr)
      as [H1 _].
    eexists. split; [by apply H1|]. by apply member_of_insert_active.
  - destruct (upsert_agent_new _ _ Hin) as (r & Heq & Hm & _).
    exists r. rewrite Heq. cbn [rows]. split; [|done].
    apply elem_of_app. right. by left.
Qed.

Lemma upsert_agent_ids_mono t it a :
  a ∈ table_agent_ids cid t → a ∈ table_agent_ids cid (upsert_agent cid t it).
Proof.
  rewrite !elem_of_table_agent_ids. intros (r & Hr & Hm1 & Hm2).
  destruct (upsert_agent_keeps t it r Hr) as (r' & Hr' & H1 & H2 & _).
  exists r'. split; [done|]. unfold member_of. by rewrite H1, H2.
Qed.
End upsert.

(** ** The final [active] value of an agent list *)

Lemma final_active_nil a : final_active [] a = None.
Proof. done. Qed.

Lemma final_active_cons it l a :
  final_active (it :: l) a =
  match final_active l a with
  | Some v => Some v
  | None => if decide (item_get it "agent_id" = a)
            then Some (item_get it "active") else None
  end.
Proof.
  unfold final_active. rewrite filter_cons. case_decide.
  - rewrite last_cons. by destruct (last _).
  - by destruct (last _).
Qed.

Lemma final_active_app l1 l2 a :
  final_active (l1 ++ l2) a =
  match final_active l2 a with
  | Some v => Some v
  | None => final_active l1 a
  end.
Proof.
  unfold final_active. rewrite filter_app, last_app. by destruct (last _).
Qed.

Lemma final_active_is_Some l a :
  is_Some (final_active l a) ↔ a ∈ request_agent_ids l.
Proof.
  unfold final_active, request_agent_ids.
  rewrite fmap_is_Some, last_is_Some, elem_of_list_to_set, list_elem_of_fmap.
  split.
  - intros Hne. destruct (filter _ l) as [|it l'] eqn:E; [done|].
    assert (it ∈ filter (λ it, item_get it "agent_id" = a) l) as Hin
      by (rewrite E; by left).
    apply list_elem_of_filter in Hin as [Hid Hin]. by exists it.
  - intros (it & -> & Hin) E.
    assert (it ∈ filter (λ it0, item_get it0 "agent_id" = item_get it "agent_id") l)
      as Hin' by by apply list_elem_of_filter.
    rewrite E in Hin'. by apply elem_of_nil in Hin'.
Qed.

(** Filtering the list on a property of the agent id keeps or drops all
    the entries of an agent together. *)
Lemma final_active_filter (Q : pyval → Prop) `{!∀ a, Decision (Q a)} l a :
  final_active (filter (λ it, Q (item_get it "agent_id")) l) a =
  if decide (Q a) then final_active l a else None.
Proof.
  unfold final_active. rewrite list_filter_filter. case_decide as HQ.
  - f_equal. f_equal. apply list_filter_iff. intros it. split; [tauto|].
    intros <-. done.
  - replace (filter _ l) with (@nil item); [done|]. symmetry.
    induction l as [|it l IH]; [done|]. rewrite filter_cons, decide_False; [done|].
    intros [<- ?]. done.
Qed.

(** ** Runs of upserts *)

Lemma col_insert_ne (r : row) k k' v : k ≠ k' → col (<[k := v]> r) k' = col r k'.
Proof. intros. rewrite col_insert. by rewrite decide_False. Qed.

Section upserts.
Variable cid : Z.

(** Every row of the room after the run either carries the final
    [active] value that the list gives its agent, or belongs to an
    agent the list does not mention and is a row of the table the run
    started from. *)
Lemma upserts_rows l : ∀ t r',
  r' ∈ rows (foldl (upsert_agent cid) t l) →
  col r' "chatroom_id" = PInt cid →
  (∃ v, final_active l (col r' "agent_id") = Some v ∧ r' !! "active" = Some v) ∨
  (final_active l (col r' "agent_id") = None ∧ r' ∈ rows t).
Proof.
  induction l as [|it l IH]; intros t r' Hin Hroom; [by right|].
  cbn [foldl] in Hin. rewrite final_active_cons.
  destruct (IH _ _ Hin Hroom) as [(v & -> & Hact)|[-> Hin1]]; [left; by exists v|].
  destruct (upsert_agent_rows cid t it r' Hin1) as [[Hin0 Hnm]|[[Hid _] Hact]].
  - right. split; [|done]. rewrite decide_False; [done|].
    intros Hid. by apply Hnm.
  - left. rewrite decide_True by done. by eexists.
Qed.

Lemma upserts_ids_mono l : ∀ t a,
  a ∈ table_agent_ids cid t → a ∈ table_agent_ids cid (foldl (upsert_agent cid) t l).
Proof.
  induction l as [|it l IH]; intros t a Ha; [done|].
  cbn [foldl]. by apply IH, upsert_agent_ids_mono.
Qed.

Lemma upserts_adds l : ∀ t it,
  it ∈ l → item_get it "agent_id" ∈ table_agent_ids cid (foldl (upsert_agent cid) t l).
Proof.
  induction l as [|it0 l IH]; intros t it Hin; [by apply elem_of_nil in Hin|].
  cbn [foldl]. apply elem_of_cons in Hin as [->|Hin]; [|by apply IH].
  apply upserts_ids_mono, upsert_agent_adds.
Qed.

(** The rows of the other rooms are not touched. *)
Lemma upsert_agent_frame t it (P : row → bool) :
  (∀ r, P r = true → col r "chatroom_id" ≠ PInt cid) →
  (∀ r v, P (<["active" := v]> r) = P r) →
  List.filter P (rows (upsert_agent cid t it)) = List.filter P (rows t).
Proof.
  intros HP Hind.
  destruct (decide (item_get it "agent_id" ∈ table_agent_ids cid t)) as [Hin|Hin].
  - destruct (upsert_agent_existing cid t it Hin) as [_ HF].
    induction HF as [|r r' l l' [H1 H2] HF IH]; [done|]. cbn [List.filter].
    destruct (decide (member_of cid (item_get it "agent_id") r)) as [Hm|Hm].
    + rewrite (H1 Hm), Hind. destruct (P r) eqn:E; [|done].
      destruct Hm as [_ Hroom]. by destruct (HP r E).
    + rewrite (H2 Hm), IH. done.
  - destruct (upsert_agent_new cid t it Hin) as (r & -> & [_ Hroom] & _).
    cbn [rows]. rewrite List.filter_app. cbn [List.filter].
    destruct (P r) eqn:E; [by destruct (HP r E)|]. by rewrite app_nil_r.
Qed.

Lemma upserts_frame l (P : row → bool) :
  (∀ r, P r = true → col r "chatroom_id" ≠ PInt cid) →
  (∀ r v, P (<["active" := v]> r) = P r) →
  ∀ t, List.filter P (rows (foldl (upsert_agent cid) t l)) = List.filter P (rows t).
Proof.
  intros HP Hind. induction l as [|it l IH]; intros t; [done|].
  cbn [foldl]. rewrite IH. by apply upsert_agent_frame.
Qed.

(** When every agent of the list is already in the room, the run only
    rewrites [active] columns. *)
Lemma upserts_existing l : ∀ t,
  (∀ it, it ∈ l → item_get it "agent_id" ∈ table_agent_ids cid t) →
  foldl (upsert_agent cid) t l = Table (refresh cid l <$> rows t) (next_id t).
Proof.
  induction l as [|it l IH]; intros t Hall.
  - cbn [foldl]. destruct t as [rs n]. cbn [rows next_id]. f_equal.
    rewrite <- (list_fmap_id rs) at 1. apply list_fmap_ext. intros _ r _.
    unfold refresh. rewrite final_active_nil. by case_decide.
  - cbn [foldl]. rewrite IH.
    2: { intros it' Hin'. apply upsert_agent_ids_mono, Hall. by right. }
    assert (item_get it "agent_id" ∈ table_agent_ids cid t) as Hin
      by (apply Hall; by left).
    destruct (upsert_agent_existing cid t it Hin) as [-> HF]. f_equal.
    clear Hall Hin IH. induction HF as [|r r' rs rs' [H1 H2] HF IH]; [done|].
    cbn [fmap list_fmap]. f_equal; [|exact IH].
    destruct (decide (member_of cid (item_get it "agent_id") r)) as [Hm|Hm].
    + rewrite (H1 Hm). destruct Hm as [Hid Hroom]. unfold refresh.
      rewrite !col_insert_ne by done. rewrite !(decide_True _ _ Hroom).
      rewrite final_active_cons, Hid.
      destruct (final_active l (item_get it "agent_id")) as [v|].
      * by rewrite insert_insert_eq.
      * by rewrite decide_True.
    + rewrite (H2 Hm). unfold refresh. case_decide as Hroom; [|done].
      rewrite final_active_cons.
      destruct (final_active l (col r "agent_id")) as [v|]; [done|].
      rewrite decide_False; [done|]. intros Hid. by apply Hm.
Qed.
End upserts.

(** ** The deletions of the reconciliation *)

Section deletes.
Variable cid : Z.

Local Abbreviation delete_member :=
  (λ (t : table) (agent_id : pyval),
     tbl_delete [("agent_id", agent_id); ("chatroom_id", PInt cid)] t).

Lemma deletes_elem ids : ∀ t r,
  r ∈ rows (foldl delete_member t ids) ↔
  r ∈ rows t ∧ ¬ (∃ a, a ∈ ids ∧ member_of cid a r).
Proof.
  induction ids as [|a ids IH]; intros t r; cbn [foldl].
  - split; [|tauto]. intros Hin. split; [done|].
    intros (a & Ha & _). by apply elem_of_nil in Ha.
  - rewrite IH, tbl_delete_elem, <- not_true_iff_false, matches_member. split.
    + intros [[Hin Hm] Hno]. split; [done|].
      intros (a' & [->|Ha']%elem_of_cons & Hm'); [done|].
      apply Hno. by exists a'.
    + intros [Hin Hno]. split; [split; [done|]|].
      * intros Hm. apply Hno. exists a. split; [by left|done].
      * intros (a' & Ha' & Hm'). apply Hno. exists a'. split; [by right|done].
Qed.

Lemma deletes_next_id ids : ∀ t, next_id (foldl delete_member t ids) = next_id t.
Proof. induction ids as [|a ids IH]; intros t; cbn [foldl]; [done|]. by rewrite IH. Qed.

Lemma deletes_frame ids (P : row → bool) :
  (∀ r, P r = true → col r "chatroom_id" ≠ PInt cid) →
  ∀ t, List.filter P (rows (foldl delete_member t ids)) = List.filter P (rows t).
Proof.
  intros HP. induction ids as [|a ids IH]; intros t; cbn [foldl]; [done|].
  rewrite IH. unfold tbl_delete. cbn [rows].
  induction (rows t) as [|r l IHl]; [done|]. cbn [List.filter].
  destruct (matches _ r) eqn:Hm; cbn [negb List.filter].
  - apply matches_member in Hm as [_ Hroom].
    destruct (P r) eqn:E; [by destruct (HP r E)|done].
  - by rewrite IHl.
Qed.
Lemma tbl_delete_comm conds1 conds2 t :
  tbl_delete conds1 (tbl_delete conds2 t) = tbl_delete conds2 (tbl_delete conds1 t).
Proof.
  unfold tbl_delete. cbn [rows next_id]. f_equal.
  induction (rows t) as [|r l IH]; [done|]. cbn [List.filter].
  destruct (matches conds1 r) eqn:E1, (matches conds2 r) eqn:E2;
    cbn [negb List.filter]; rewrite ?E1, ?E2; cbn [negb]; by rewrite ?IH.
Qed.

(** Python enumerates [agents_to_delete] in an order of its own; the
    outcome of the deletions does not depend on it. *)
Lemma deletes_permutation ids ids' :
  ids ≡ₚ ids' → ∀ t, foldl delete_member t ids = foldl delete_member t ids'.
Proof.
  induction 1 as [|a l l' _ IH|a b l|l1 l2 l3 _ IH1 _ IH2]; intros t; cbn [foldl].
  - done.
  - apply IH.
  - by rewrite tbl_delete_comm.
  - by rewrite IH1.
Qed.
End deletes.

(** ** The reconciliation of [update_chatroom] *)

Lemma filter_none {A} (P : A → Prop) `{!∀ x, Decision (P x)} (l : list A) :
  (∀ x, x ∈ l → ¬ P x) → filter P l = [].
Proof.
  induction l as [|x l IH]; intros Hall; [done|].
  rewrite filter_cons_False by (apply Hall; by left).
  apply IH. intros y Hy. apply Hall. by right.
Qed.

Lemma filter_all {A} (P : A → Prop) `{!∀ x, Decision (P x)} (l : list A) :
  (∀ x, x ∈ l → P x) → filter P l = l.
Proof.
  induction l as [|x l IH]; intros Hall; [done|].
  rewrite filter_cons_True by (apply Hall; by left).
  f_equal. apply IH. intros y Hy. apply Hall. by right.
Qed.

Lemma elem_of_request_agent_ids l it :
  it ∈ l → item_get it "agent_id" ∈ request_agent_ids l.
Proof.
  intros Hin. unfold request_agent_ids.
  apply elem_of_list_to_set, list_elem_of_fmap. by exists it.
Qed.

Section reconcile.
Variables (cid : Z) (new_agents : list item) (t : table).

Lemma final_active_split (E : gset pyval) a :
  final_active
    (filter (λ it, item_get it "agent_id" ∉ E) new_agents ++
     filter (λ it, item_get it "agent_id" ∈ E) new_agents) a
  = final_active new_agents a.
Proof.
  rewrite final_active_app.
  pose proof (final_active_filter (λ a, a ∈ E) new_agents a) as Hin.
  pose proof (final_active_filter (λ a, a ∉ E) new_agents a) as Hout.
  cbv beta in Hin, Hout. rewrite Hin, Hout.
  destruct (decide (a ∈ E)).
  - rewrite decide_False by tauto. by destruct (final_active new_agents a).
  - by rewrite decide_True.
Qed.

Lemma reconcile_unfold :
  reconcile cid new_agents t =
  foldl (upsert_agent cid)
    (foldl (λ t a, tbl_delete [("agent_id", a); ("chatroom_id", PInt cid)] t) t
       (elements (table_agent_ids cid t ∖ request_agent_ids new_agents)))
    (filter (λ it, item_get it "agent_id" ∉ table_agent_ids cid t) new_agents ++
     filter (λ it, item_get it "agent_id" ∈ table_agent_ids cid t) new_agents).
Proof. unfold reconcile. by rewrite foldl_app. Qed.

(** Every membership row of the room after the reconciliation belongs
    to an agent of the incoming list and carries the [active] value
    the list gives that agent. *)
Lemma reconcile_rows r' :
  r' ∈ rows (reconcile cid new_agents t) →
  col r' "chatroom_id" = PInt cid →
  ∃ v, final_active new_agents (col r' "agent_id") = Some v ∧
       r' !! "active" = Some v.
Proof.
  rewrite reconcile_unfold. intros Hin Hroom.
  destruct (upserts_rows _ _ _ _ Hin Hroom) as [(v & Hv & Hact)|[Hnone Hin1]].
  - exists v. by rewrite final_active_split in Hv.
  - exfalso. rewrite final_active_split in Hnone.
    apply deletes_elem in Hin1 as [Hin0 Hkept].
    assert (col r' "agent_id" ∈ table_agent_ids cid t) as HE
      by (apply elem_of_table_agent_ids; by exists r').
    destruct (decide (col r' "agent_id" ∈ request_agent_ids new_agents)) as [HN|HN].
    + apply final_active_is_Some in HN as [v Hv]. congruence.
    + apply Hkept. exists (col r' "agent_id"). split; [|done].
      apply elem_of_elements, elem_of_difference. done.
Qed.

Lemma reconcile_agent_ids :
  table_agent_ids cid (reconcile cid new_agents t) = request_agent_ids new_agents.
Proof.
  apply set_eq. intros a. split.
  - intros (r' & Hin & <- & Hroom)%elem_of_table_agent_ids.
    destruct (reconcile_rows r' Hin Hroom) as (v & Hv & _).
    apply final_active_is_Some. by exists v.
  - unfold request_agent_ids at 1.
    rewrite elem_of_list_to_set, list_elem_of_fmap. intros (it & -> & Hin).
    rewrite reconcile_unfold. apply upserts_adds.
    apply elem_of_app. rewrite !list_elem_of_filter.
    destruct (decide (item_get it "agent_id" ∈ table_agent_ids cid t)); tauto.
Qed.

(** The memberships of the other rooms are left as they were. *)
Lemma reconcile_frame c :
  c ≠ cid →
  tbl_select [("chatroom_id", PInt c)] (reconcile cid new_agents t)
  = tbl_select [("chatroom_id", PInt c)] t.
Proof.
  intros Hc. rewrite reconcile_unfold. unfold tbl_select.
  assert (∀ r, matches [("chatroom_id", PInt c)] r = true →
               col r "chatroom_id" ≠ PInt cid) as HP.
  { intros r. rewrite matches_one, bool_decide_eq_true. intros -> [=]. done. }
  rewrite upserts_frame, deletes_frame; [done|done|done|].
  intros r v. by rewrite !matches_one, col_insert_ne.
Qed.

(** Reconciling a second time with the same list changes nothing. *)
Lemma reconcile_idempotent :
  reconcile cid new_agents (reconcile cid new_agents t) = reconcile cid new_agents t.
Proof.
  unfold reconcile at 1. rewrite !reconcile_agent_ids.
  rewrite difference_diag_L, elements_empty. cbn [foldl].
  replace (filter (λ it, item_get it "agent_id" ∉ request_agent_ids new_agents)
             new_agents) with (@nil item).
  2: { symmetry. apply filter_none. intros it Hin Hno.
       by apply Hno, elem_of_request_agent_ids. }
  cbn [foldl]. rewrite filter_all by apply elem_of_request_agent_ids.
  rewrite upserts_existing.
  2: { intros it Hin. rewrite reconcile_agent_ids.
       by apply elem_of_request_agent_ids. }
  destruct (reconcile cid new_agents t) as [rs n] eqn:E. cbn [rows next_id]. f_equal.
  rewrite <- (list_fmap_id rs) at 2. apply list_fmap_ext. intros i r Hr.
  apply list_elem_of_lookup_2 in Hr.
  unfold refresh. case_decide as Hroom; [|done].
  assert (r ∈ rows (reconcile cid new_agents t)) as Hin by by rewrite E.
  destruct (reconcile_rows r Hin Hroom) as (v & -> & Hact).
  by apply insert_id.
Qed.
End reconcile.

Lemma upsert_agent_keeps_row cid t it r :
  r ∈ rows t →
  ∃ r', r' ∈ rows (upsert_agent cid t it) ∧ delete "active" r' = delete "active" r.
Proof.
  intros Hr.
  destruct (decide (item_get it "agent_id" ∈ table_agent_ids cid t)) as [Hin|Hin].
  - destruct (column_set_elem_rev _ _ _ _ _ _ (upsert_agent_existing _ _ _ Hin) Hr)
      as [H1 H2].
    destruct (decide (member_of cid (item_get it "agent_id") r)) as [Hm|Hm].
    + eexists. split; [by apply H1|]. by rewrite delete_insert_eq.
    + exists r. split; [by apply H2|done].
  - destruct (upsert_agent_new _ _ _ Hin) as (r0 & -> & _).
    exists r. cbn [rows]. split; [|done]. apply elem_of_app. by left.
Qed.

Lemma upserts_keep_row cid l : ∀ t r,
  r ∈ rows t →
  ∃ r', r' ∈ rows (foldl (upsert_agent cid) t l) ∧
        delete "active" r' = delete "active" r.
Proof.
  induction l as [|it l IH]; intros t r Hr; [by exists r|]. cbn [foldl].
  destruct (upsert_agent_keeps_row cid t it r Hr) as (r1 & Hr1 & E1).
  destruct (IH _ _ Hr1) as (r2 & Hr2 & E2). exists r2. split; [done|congruence].
Qed.

(** A membership of the room whose agent is in the incoming list is
    kept as the row it was, with [active] rewritten. *)
Lemma reconcile_refreshes cid new_agents t r :
  r ∈ rows t → col r "chatroom_id" = PInt cid →
  col r "agent_id" ∈ request_agent_ids new_agents →
  ∃ v, final_active new_agents (col r "agent_id") = Some v ∧
       <["active" := v]> r ∈ rows (reconcile cid new_agents t).
Proof.
  intros Hr Hroom HN.
  assert (∃ r', r' ∈ rows (reconcile cid new_agents t) ∧
                delete "active" r' = delete "active" r) as (r' & Hr' & E).
  { rewrite reconcile_unfold. apply upserts_keep_row, deletes_elem.
    split; [done|]. intros (a & Ha & <- & _).
    apply elem_of_elements, elem_of_difference in Ha as [_ Ha]. done. }
  assert (∀ k, k ≠ "active" → col r' k = col r k) as Hcols.
  { intros k Hk. unfold col.
    by rewrite <- (lookup_delete_ne r' "active" k), E, lookup_delete_ne. }
  destruct (reconcile_rows cid new_agents t r' Hr') as (v & Hv & Hact).
  { by rewrite Hcols. }
  rewrite Hcols in Hv by done. exists v. split; [done|].
  replace (<["active" := v]> r) with r'; [done|].
  rewrite <- (insert_id r' "active" v Hact).
  by rewrite <- insert_delete_eq, E, insert_delete_eq.
Qed.

(** ** The handlers on their success paths *)

Lemma set_relations_id d : set_relations (relations d) d = d.
Proof. by destruct d. Qed.

Lemma for_each_delete cid ids : ∀ d,
  for_each ids (λ agent_id,
    Relation_delete [("agent_id", agent_id); ("chatroom_id", PInt cid)]) d
  = (tt, set_relations
           (foldl (λ t a, tbl_delete [("agent_id", a); ("chatroom_id", PInt cid)] t)
              (relations d) ids) d).
Proof.
  induction ids as [|a ids IH]; intros d; cbn [for_each foldl].
  - unfold ret. by rewrite set_relations_id.
  - unfold bind, Relation_delete, write. rewrite IH. by destruct d.
Qed.

Lemma guarded_deletes (X : gset pyval) (body : pyval → M unit) d :
  (if bool_decide (X ≠ ∅) then for_each (elements X) body else ret tt) d
  = for_each (elements X) body d.
Proof.
  case_bool_decide as HX; [done|]. subst X.
  by rewrite elements_empty.
Qed.

Lemma guarded_insert_agent l cid d :
  (if negb (list_falsy l) then insert_agent l cid else ret tt) d = insert_agent l cid d.
Proof.
  destruct l; [|done]. unfold insert_agent, write, ret. cbn [negb list_falsy foldl].
  by rewrite set_relations_id.
Qed.

Lemma request_accepted_checks req :
  request_accepted req →
  list_falsy (agent req) || (length (agent req) =? 0)%nat = false ∧
  check_agent_items (agent req) = None.
Proof.
  intros (_ & _ & Hne & Hall). split; [|by apply check_agent_items_None].
  by destruct (agent req).
Qed.

Lemma update_chatroom_accepted cid (req : ReqChatroomUpdateSchema) u d :
  lk_status (search_chatrooms_id cid (uid u) d) = true →
  request_accepted req →
  update_chatroom cid req u d =
  (response_success (ChatroomId cid) None None,
   set_relations (reconcile cid (agent req) (relations d))
     (set_chatrooms
        (tbl_update [("id", PInt cid)] {["max_round" := max_round req]} (chatrooms d))
        (set_apps
           (tbl_update
              [("id", lk_app_id (search_chatrooms_id cid (uid u) d));
               ("team_id", PInt (team_id u)); ("user_id", PInt (uid u));
               ("mode", PInt 5)]
              {["name" := name req; "description" := description req]} (apps d))
           d))).
Proof.
  intros Hok Hreq. destruct (request_accepted_checks req Hreq) as [Hlen Hitems].
  destruct Hreq as (Hname & Hround & _).
  unfold update_chatroom, bind, read.
  rewrite Hok, Hname, Hround, Hlen, Hitems. cbn [negb].
  unfold Apps_update, Chatrooms_update, write at 1 2.
  rewrite guarded_deletes, for_each_delete.
  rewrite guarded_insert_agent. unfold insert_agent at 1, write at 1.
  rewrite guarded_insert_agent. unfold insert_agent at 1, write at 1.
  unfold ret, get_agents_by_chatroom_id. store_simpl. reflexivity.
Qed.

Lemma update_chatroom_rejected_or_accepted cid (req : ReqChatroomUpdateSchema) u d :
  (∃ key, update_chatroom cid req u d = (response_error key, d)) ∨
  (lk_status (search_chatrooms_id cid (uid u) d) = true ∧ request_accepted req).
Proof.
  unfold update_chatroom, bind, read, ret, request_accepted.
  destruct (lk_status _); cbn [negb]; [|left; by eexists].
  destruct (truthy (name req)); cbn [negb]; [|left; by eexists].
  destruct (none_or_empty (max_round req)); [left; by eexists|].
  destruct (list_falsy (agent req) || _) eqn:Hlen; [left; by eexists|].
  destruct (check_agent_items (agent req)) eqn:Hitems; [left; by eexists|].
  right. repeat split; [|by apply check_agent_items_None].
  intros E. by rewrite E in Hlen.
Qed.

Lemma create_chatroom_accepted (req : ReqChatroomCreateSchema) u d :
  request_accepted req →
  create_chatroom req u d =
  (response_success (ChatroomId (next_id (chatrooms d))) None None,
   set_relations
     (foldl (upsert_agent (next_id (chatrooms d))) (relations d) (agent req))
     (set_chatrooms
        (tbl_insert
           {[ "team_id" := PInt (team_id u); "user_id" := PInt (uid u);
              "app_id" := PInt (next_id (apps d)); "max_round" := max_round req;
              "status" := PInt 1 ]} (chatrooms d)).2
        (set_apps
           (tbl_insert
              {[ "team_id" := PInt (team_id u); "user_id" := PInt (uid u);
                 "name" := name req; "description" := description req;
                 "mode" := PInt 5; "status" := PInt 1 ]} (apps d)).2 d))).
Proof.
  intros Hreq. destruct (request_accepted_checks req Hreq) as [Hlen Hitems].
  destruct Hreq as (Hname & Hround & _).
  unfold create_chatroom, bind. rewrite Hname, Hround, Hlen, Hitems. reflexivity.
Qed.

(** A run of upserts leaves, for every agent of the list, a membership
    row with the agent's final [active] value. *)
Lemma upserts_written cid l t a v :
  final_active l a = Some v →
  ∃ r, r ∈ tbl_select [("chatroom_id", PInt cid)] (foldl (upsert_agent cid) t l) ∧
       col r "agent_id" = a ∧ col r "active" = v.
Proof.
  intros Hv.
  assert (a ∈ request_agent_ids l) as Ha by (apply final_active_is_Some; by exists v).
  unfold request_agent_ids in Ha.
  apply elem_of_list_to_set, list_elem_of_fmap in Ha as (it & -> & Hin).
  pose proof (upserts_adds cid l t it Hin) as Hrow.
  apply elem_of_table_agent_ids in Hrow as (r & Hr & Hid & Hroom).
  exists r. split.
  { apply tbl_select_elem. split; [done|]. by rewrite matches_one, bool_decide_eq_true. }
  split; [done|].
  destruct (upserts_rows cid l t r Hr Hroom) as [(v' & Hv' & Hact)|[Hnone _]].
  - unfold col. rewrite Hact. cbn. congruence.
  - congruence.
Qed.

Lemma toggle_auto_answer_switch_out_of_range cid aid v u d :
  in_0_1 v = false →
  ∃ key, toggle_auto_answer_switch cid aid {| active := v |} u d
         = (response_error key, d).
Proof.
  intros Hv. unfold toggle_auto_answer_switch, bind, read, ret. cbn [active].
  destruct (cid =? 0); [by eexists|].
  destruct (lk_status _); cbn [negb]; [|by eexists].
  destruct (aid =? 0); [by eexists|].
  destruct (bool_decide _); cbn [negb]; [|by eexists].
  destruct (none_or_empty v); [by eexists|].
  rewrite Hv. by eexists.
Qed.

(** ** Membership after update and create *)

(** C1: an update call on an existing owned room with a request that
    passes the checks succeeds, and afterwards the set of agent ids
    attached to the room is exactly the set of agent ids of the incoming
    list: the ids that were attached but are not in the list are gone,
    the ids of the list are all there, every membership row of the room
    carries the [active] value the list gives its agent, and a row of an
    agent that was attached before and is in the list is the row it was
    with [active] written again.  The memberships of the other rooms are
    left as they were. *)
Theorem update_reconciles_membership cid (req : ReqChatroomUpdateSchema) u d :
  lk_status (search_chatrooms_id cid (uid u) d) = true →
  request_accepted req →
  let out := update_chatroom cid req u d in
  let existing := room_agent_ids cid d in
  let incoming := request_agent_ids (agent req) in
  out.1 = response_success (ChatroomId cid) None None ∧
  room_agent_ids cid out.2 = incoming ∧
  (∀ a, a ∈ existing → a ∉ incoming → a ∉ room_agent_ids cid out.2) ∧
  (∀ a, a ∈ incoming → a ∉ existing → a ∈ room_agent_ids cid out.2) ∧
  (∀ a, a ∈ incoming → a ∈ existing → a ∈ room_agent_ids cid out.2) ∧
  (∀ r, r ∈ get_agents_by_chatroom_id cid out.2 →
        final_active (agent req) (col r "agent_id") = Some (col r "active")) ∧
  (∀ r, r ∈ get_agents_by_chatroom_id cid d → col r "agent_id" ∈ incoming →
        ∃ v, final_active (agent req) (col r "agent_id") = Some v ∧
             <["active" := v]> r ∈ get_agents_by_chatroom_id cid out.2) ∧
  (∀ c, c ≠ cid →
        get_agents_by_chatroom_id c out.2 = get_agents_by_chatroom_id c d).
Proof.
  intros Hok Hreq out existing incoming. subst out existing incoming.
  rewrite update_chatroom_accepted by done.
  unfold room_agent_ids, get_agents_by_chatroom_id. store_simpl.
  fold (table_agent_ids cid (reconcile cid (agent req) (relations d))).
  rewrite reconcile_agent_ids.
  split; [done|]. split; [done|]. split; [done|]. split; [done|]. split; [done|].
  split; [|split].
  - intros r [Hin Hm]%tbl_select_elem.
    rewrite matches_one, bool_decide_eq_true in Hm.
    destruct (reconcile_rows cid (agent req) (relations d) r Hin Hm) as (v & -> & Hact).
    unfold col. by rewrite Hact.
  - intros r [Hin Hm]%tbl_select_elem HN.
    rewrite matches_one, bool_decide_eq_true in Hm.
    destruct (reconcile_refreshes cid (agent req) (relations d) r Hin Hm HN)
      as (v & Hv & Hin').
    exists v. split; [done|]. apply tbl_select_elem. split; [done|].
    by rewrite matches_one, bool_decide_eq_true, col_insert_ne.
  - intros c Hc. by apply reconcile_frame.
Qed.

(** C9: the checks of create and update look at the shape of an entry
    only.  Whatever the [active] values of an accepted request are (no
    hypothesis restricts them to 0 and 1), create and update succeed and
    the room ends up with a membership row for every agent of the list
    that holds the [active] value of the agent's last entry as it was
    sent; set_agent_active, in contrast, answers every [active] value
    other than 0 and 1 with an error and writes nothing. *)
Theorem active_is_not_range_checked_on_create_and_update
    cid (req : ReqChatroomCreateSchema) u d :
  request_accepted req →
  let created := create_chatroom req u d in
  let updated := update_chatroom cid req u d in
  let new_id := next_id (chatrooms d) in
  (created.1 = response_success (ChatroomId new_id) None None ∧
   ∀ a v, final_active (agent req) a = Some v →
     ∃ r, r ∈ get_agents_by_chatroom_id new_id created.2 ∧
          col r "agent_id" = a ∧ col r "active" = v) ∧
  (lk_status (search_chatrooms_id cid (uid u) d) = true →
   updated.1 = response_success (ChatroomId cid) None None ∧
   ∀ a v, final_active (agent req) a = Some v →
     ∃ r, r ∈ get_agents_by_chatroom_id cid updated.2 ∧
          col r "agent_id" = a ∧ col r "active" = v) ∧
  (∀ aid v d', v ≠ PInt 0 → v ≠ PInt 1 →
     ∃ key, toggle_auto_answer_switch cid aid {| active := v |} u d'
            = (response_error key, d')).
Proof.
  intros Hreq created updated new_id. subst created updated new_id.
  split; [|split].
  - rewrite create_chatroom_accepted by done. split; [done|].
    intros a v Hv. unfold get_agents_by_chatroom_id. store_simpl.
    by apply upserts_written.
  - intros Hok. rewrite update_chatroom_accepted by done. split; [done|].
    intros a v Hv. unfold get_agents_by_chatroom_id. store_simpl.
    rewrite reconcile_unfold. apply upserts_written.
    by rewrite final_active_split.
  - intros aid v d' H0 H1. apply toggle_auto_answer_switch_out_of_range.
    unfold in_0_1. by rewrite !bool_decide_eq_false_2.
Qed.

Lemma entry_well_shaped a v : well_shaped (entry a v).
Proof. split; apply elem_of_dom; by eexists. Qed.

Lemma room_request_accepted l :
  l ≠ [] → Forall well_shaped l → request_accepted (room_request l).
Proof. intros Hne Hall. by repeat split. Qed.

(** The example of the specification: the room holds agents 1 and 2 and
    is updated with agents 2 and 3. *)
Lemma update_reconciles_membership_witness :
  room_agent_ids 1
    (update_chatroom 1
       (room_request [entry (PInt 2) (PInt 1); entry (PInt 3) (PInt 1)]) alice db1).2
  = {[ PInt 2; PInt 3 ]}.
Proof.
  assert (request_accepted
            (room_request [entry (PInt 2) (PInt 1); entry (PInt 3) (PInt 1)])) as Hreq.
  { apply room_request_accepted; [done|]. repeat constructor; apply entry_well_shaped. }
  assert (lk_status (search_chatrooms_id 1 (uid alice) db1) = true) as Hok
    by reflexivity.
  rewrite (proj1 (proj2 (update_reconciles_membership 1 _ alice db1 Hok Hreq))).
  apply set_eq. intros a. unfold request_agent_ids. cbn.
  rewrite !elem_of_union, !elem_of_singleton, elem_of_empty. tauto.
Defined.

Lemma active_is_not_range_checked_on_create_and_update_witness :
  ∃ r, r ∈ get_agents_by_chatroom_id 1
             (create_chatroom
                (room_request [entry (PInt 1) (PInt 5); entry (PInt 2) (PStr "on")])
                alice db0).2 ∧
       col r "agent_id" = PInt 2 ∧ col r "active" = PStr "on".
Proof.
  assert (request_accepted
            (room_request [entry (PInt 1) (PInt 5); entry (PInt 2) (PStr "on")])) as Hreq.
  { apply room_request_accepted; [done|]. repeat constructor; apply entry_well_shaped. }
  apply (proj2 (proj1 (active_is_not_range_checked_on_create_and_update
                         1 _ alice db0 Hreq))).
  reflexivity.
Defined.

(** ** Updating twice *)

Lemma tbl_update_idempotent conds data t :
  tbl_update conds data (tbl_update conds data t) = tbl_update conds data t.
Proof.
  unfold tbl_update. cbn [rows next_id]. f_equal. rewrite map_map.
  apply map_ext. intros r. destruct (matches conds r) eqn:E; [|by rewrite E].
  destruct (matches conds (data ∪ r)); [|done].
  by rewrite (assoc_L (∪)), (idemp_L (∪)).
Qed.

Lemma tbl_select_update conds conds' data t :
  (∀ r, matches conds (data ∪ r) = matches conds r) →
  tbl_select conds (tbl_update conds' data t)
  = map (λ r, if matches conds' r then data ∪ r else r) (tbl_select conds t).
Proof.
  intros Hind. unfold tbl_select, tbl_update. cbn [rows].
  induction (rows t) as [|r l IH]; [done|]. cbn [map List.filter].
  assert (matches conds (if matches conds' r then data ∪ r else r) = matches conds r)
    as -> by (destruct (matches conds' r); [apply Hind|done]).
  destruct (matches conds r); cbn [map]; by rewrite IH.
Qed.

(** Writing [max_round] does not change whether the room is found, nor
    the application it points to. *)
Lemma search_chatrooms_id_after_update cid uid m d a r :
  let d' := set_relations r
              (set_chatrooms
                 (tbl_update [("id", PInt cid)] {["max_round" := m]} (chatrooms d))
                 (set_apps a d)) in
  lk_status (search_chatrooms_id cid uid d') = lk_status (search_chatrooms_id cid uid d) ∧
  lk_app_id (search_chatrooms_id cid uid d') = lk_app_id (search_chatrooms_id cid uid d).
Proof.
  intros d'. subst d'. unfold search_chatrooms_id. store_simpl.
  rewrite tbl_select_update.
  2: { intros r0. rewrite singleton_union. unfold matches. cbn [forallb fst snd].
       by rewrite !col_insert_ne. }
  destruct (tbl_select _ (chatrooms d)) as [|r0 l]; [done|]. cbn [map lk_status lk_app_id].
  split; [done|]. destruct (matches _ r0); [|done].
  by rewrite singleton_union, col_insert_ne.
Qed.

(** C4: update is idempotent.  Calling it a second time with the same
    arguments on the store the first call left gives the same response
    and leaves that store unchanged; in particular the membership rows
    of the room, and so the set of agent ids attached to it, are the
    same after two calls as after one. *)
Theorem update_is_idempotent cid (req : ReqChatroomUpdateSchema) u d :
  let once := update_chatroom cid req u d in
  let twice := update_chatroom cid req u once.2 in
  twice = once ∧
  get_agents_by_chatroom_id cid twice.2 = get_agents_by_chatroom_id cid once.2 ∧
  room_agent_ids cid twice.2 = room_agent_ids cid once.2.
Proof.
  intros once twice.
  assert (twice = once) as Heq; [|by rewrite Heq].
  subst once twice.
  destruct (update_chatroom_rejected_or_accepted cid req u d)
    as [[key Hrej]|[Hok Hreq]].
  - rewrite Hrej. cbn [snd]. exact Hrej.
  - rewrite (update_chatroom_accepted cid req u d) by done. cbn [snd].
    set (app := lk_app_id (search_chatrooms_id cid (uid u) d)).
    pose proof (search_chatrooms_id_after_update cid (uid u) (max_round req) d
                  (tbl_update
                     [("id", app); ("team_id", PInt (team_id u));
                      ("user_id", PInt (uid u)); ("mode", PInt 5)]
                     {["name" := name req; "description" := description req]} (apps d))
                  (reconcile cid (agent req) (relations d))) as [Hst Happ].
    cbv zeta in Hst, Happ.
    rewrite update_chatroom_accepted by (by rewrite ?Hst).
    rewrite Happ. fold app. store_simpl.
    by rewrite !tbl_update_idempotent, reconcile_idempotent.
Qed.

(** ** The at-least-one-active-agent invariant *)

(** C2 does not hold for update: in [db1] room 1 has two memberships,
    both active; after an update whose list names agent 1 with
    [active = 0] the room still has a membership and none is active.
    The guard that keeps an agent active exists in
    [toggle_auto_answer_switch] only. *)
Theorem update_can_leave_no_active_agent :
  let out := update_chatroom 1 (room_request [entry (PInt 1) (PInt 0)]) alice db1 in
  some_agent_active 1 db1 ∧
  out.1 = response_success (ChatroomId 1) None None ∧
  get_agents_by_chatroom_id 1 out.2 ≠ [] ∧
  get_active_agents_by_chatroom_id 1 out.2 = [] ∧
  ¬ some_agent_active 1 out.2.
Proof.
  cbv zeta. split; [|split; [|split; [|split]]].
  - intros _. by vm_compute.
  - reflexivity.
  - by vm_compute.
  - reflexivity.
  - intros H. apply H; [by vm_compute|reflexivity].
Qed.

(** The same happens on create: a room created with every entry
    inactive has memberships and no active one. *)
Lemma create_can_leave_no_active_agent :
  let out := create_chatroom (room_request [entry (PInt 1) (PInt 0)]) alice db0 in
  out.1 = response_success (ChatroomId 1) None None ∧
  ¬ some_agent_active 1 out.2.
Proof.
  cbv zeta. split; [reflexivity|].
  intros H. apply H; [by vm_compute|reflexivity].
Qed.


(** ** Where the invariant does hold

    Apart from create and update, the handlers keep the
    at-least-one-active-agent invariant: set_smart_selection and history
    do not touch the memberships, delete removes all the memberships of
    the room, and set_agent_active is guarded. *)

Lemma tbl_update_elem conds data t r :
  r ∈ rows t → (if matches conds r then data ∪ r else r) ∈ rows (tbl_update conds data t).
Proof.
  intros Hin. unfold tbl_update. cbn [rows]. apply list_elem_of_In.
  apply (in_map (λ r, if matches conds r then data ∪ r else r)).
  by apply list_elem_of_In.
Qed.

Lemma NoDup_fmap_filter {A B} (f : A → B) (P : A → bool) (l : list A) :
  NoDup (f <$> l) → NoDup (f <$> List.filter P l).
Proof.
  induction l as [|x l IH]; [done|]. cbn [fmap list_fmap List.filter].
  intros [Hx Hl]%NoDup_cons. destruct (P x); [|by apply IH].
  cbn [fmap list_fmap]. apply NoDup_cons. split; [|by apply IH].
  intros (y & Hy & Hin)%list_elem_of_fmap. apply Hx.
  apply list_elem_of_fmap. exists y. split; [done|].
  apply list_elem_of_In, filter_In in Hin as [Hin _]. by apply list_elem_of_In.
Qed.

Lemma toggle_auto_answer_switch_rejected_or_accepted cid aid v u d :
  (∃ key, toggle_auto_answer_switch cid aid {| active := v |} u d
          = (response_error key, d)) ∨
  (setting_reachable cid aid u d ∧
   (v = PInt 1 ∨
    (v = PInt 0 ∧ (2 ≤ length (get_active_agents_by_chatroom_id cid d))%nat))).
Proof.
  unfold toggle_auto_answer_switch, bind, read, ret, setting_reachable. cbn [active].
  destruct (cid =? 0) eqn:Hcid; [left; by eexists|]. apply Z.eqb_neq in Hcid.
  destruct (lk_status _); cbn [negb]; [|left; by eexists].
  destruct (aid =? 0) eqn:Haid; [left; by eexists|]. apply Z.eqb_neq in Haid.
  case_bool_decide as Hagent; cbn [negb]; [|left; by eexists].
  destruct (none_or_empty v); [left; by eexists|].
  destruct (in_0_1 v) eqn:Hv; cbn [negb]; [|left; by eexists].
  destruct (search_chatroom_agent_relation_id cid aid d); cbn [negb]; [|left; by eexists].
  unfold in_0_1 in Hv. apply orb_true_iff in Hv.
  rewrite !bool_decide_eq_true in Hv. destruct Hv as [-> | ->].
  - rewrite bool_decide_eq_true_2 by done.
    destruct (length _ <=? 1)%nat eqn:Hlen; [left; by eexists|].
    apply Nat.leb_gt in Hlen. right. repeat split; try done. right. split; [done|lia].
  - right. repeat split; try done. by left.
Qed.

(** The guard does its job: on a store where a (room, agent) pair has
    at most one membership row, set_agent_active keeps an active agent
    in every room that has one. *)
Lemma toggle_auto_answer_switch_keeps_an_agent_active cid aid v u d c :
  unique_memberships (relations d) →
  some_agent_active c d →
  some_agent_active c (toggle_auto_answer_switch cid aid {| active := v |} u d).2.
Proof.
  intros Huniq Hinv.
  destruct (toggle_auto_answer_switch_rejected_or_accepted cid aid v u d)
    as [[key ->]|[Hpre Hv]]; [done|].
  rewrite toggle_auto_answer_switch_sets by done.
  unfold some_agent_active, get_agents_by_chatroom_id,
    get_active_agents_by_chatroom_id in *. store_simpl.
  set (key := [("chatroom_id", PInt cid); ("agent_id", PInt aid)]).
  assert (∀ r w, matches [("chatroom_id", PInt c)] (({["active" := w]} : row) ∪ r)
                 = matches [("chatroom_id", PInt c)] r) as Hroom.
  { intros r w. by rewrite singleton_union, !matches_one, col_insert_ne. }
  intros Hsome.
  assert (tbl_select [("chatroom_id", PInt c)] (relations d) ≠ []) as Hbefore.
  { intros E. apply Hsome. by rewrite tbl_select_update, E. }
  apply Hinv in Hbefore. clear Hsome Hinv.
  assert (∃ r, r ∈ tbl_select [("chatroom_id", PInt c); ("active", PInt 1)] (relations d) ∧
               (v = PInt 1 ∨ matches key r = false)) as (r & Hr & Hkeep).
  { destruct Hv as [->|[-> Hlen]].
    - destruct (tbl_select [("chatroom_id", PInt c); ("active", PInt 1)] (relations d))
        as [|r l] eqn:E; [done|].
      exists r. split; [by left|by left].
    - destruct (decide (c = cid)) as [->|Hc].
      + unfold get_active_agents_by_chatroom_id in Hlen.
        pose proof (NoDup_fmap_filter _
                      (matches [("chatroom_id", PInt cid); ("active", PInt 1)])
                      _ Huniq) as Hnd.
        fold (tbl_select [("chatroom_id", PInt cid); ("active", PInt 1)] (relations d))
          in Hnd.
        destruct (tbl_select _ (relations d)) as [|r1 [|r2 l]] eqn:E;
          [cbn in Hlen; lia|cbn in Hlen; lia|].
        destruct (matches key r1) eqn:M1; [|exists r1; split; [by left|by right]].
        exists r2. split; [right; by left|]. right.
        destruct (matches key r2) eqn:M2; [|done]. exfalso.
        unfold key in M1, M2.
        rewrite matches_two, andb_true_iff, !bool_decide_eq_true in M1, M2.
        cbn [fmap list_fmap] in Hnd. apply NoDup_cons in Hnd as [Hnd _].
        apply Hnd. destruct M1 as [-> ->], M2 as [-> ->]. by left.
      + destruct (tbl_select [("chatroom_id", PInt c); ("active", PInt 1)] (relations d))
          as [|r l] eqn:E; [done|].
        exists r. split; [by left|]. right.
        assert (r ∈ tbl_select [("chatroom_id", PInt c); ("active", PInt 1)]
                      (relations d)) as Hin by (rewrite E; by left).
        apply tbl_select_elem in Hin as [_ Hm].
        rewrite matches_two, andb_true_iff, !bool_decide_eq_true in Hm.
        unfold key. rewrite matches_two, andb_false_iff, !bool_decide_eq_false.
        left. destruct Hm as [-> _]. intros [=]. done. }
  intros E.
  assert (∃ r', r' ∈ tbl_select [("chatroom_id", PInt c); ("active", PInt 1)]
                        (tbl_update key {["active" := v]} (relations d)))
    as [r' Hr']; [|rewrite E in Hr'; by apply elem_of_nil in Hr'].
  apply tbl_select_elem in Hr as [Hin Hm].
  exists (if matches key r then {["active" := v]} ∪ r else r).
  apply tbl_select_elem. split.
  - by apply tbl_update_elem.
  - destruct Hkeep as [->|Hno]; [|by rewrite Hno].
    destruct (matches key r); [|done].
    rewrite matches_two, andb_true_iff, !bool_decide_eq_true in Hm |- *.
    rewrite singleton_union, col_insert_ne, col_insert by done. cbn. tauto.
Qed.

(** ** Uniqueness of memberships is kept by every handler *)

Lemma tbl_update_active_unique conds v t :
  unique_memberships t → unique_memberships (tbl_update conds {["active" := v]} t).
Proof.
  unfold unique_memberships, tbl_update. cbn [rows].
  intros Hnd. rewrite <- list_fmap_compose.
  erewrite list_fmap_ext; [exact Hnd|]. intros i r _. cbn.
  destruct (matches conds r); [|done].
  by rewrite singleton_union, !col_insert_ne.
Qed.

Lemma tbl_delete_unique conds t :
  unique_memberships t → unique_memberships (tbl_delete conds t).
Proof. unfold unique_memberships, tbl_delete. cbn [rows]. apply NoDup_fmap_filter. Qed.

Lemma upsert_agent_unique cid t it :
  unique_memberships t → unique_memberships (upsert_agent cid t it).
Proof.
  intros Hnd.
  destruct (decide (item_get it "agent_id" ∈ table_agent_ids cid t)) as [Hin|Hin].
  - unfold upsert_agent. apply existsb_member in Hin. rewrite Hin.
    by apply tbl_update_active_unique.
  - destruct (upsert_agent_new cid t it Hin) as (r & -> & [Hid Hroom] & _).
    unfold unique_memberships in *. cbn [rows].
    rewrite fmap_app. apply NoDup_app. split; [done|]. split.
    + intros k (r0 & -> & Hr0)%list_elem_of_fmap Hk. cbn in Hk.
      apply list_elem_of_singleton in Hk. injection Hk as H1 H2.
      apply Hin, elem_of_table_agent_ids. exists r0. split; [done|].
      split; congruence.
    + cbn. apply NoDup_singleton.
Qed.

Lemma upserts_unique cid l : ∀ t,
  unique_memberships t → unique_memberships (foldl (upsert_agent cid) t l).
Proof.
  induction l as [|it l IH]; intros t Hnd; [done|].
  cbn [foldl]. by apply IH, upsert_agent_unique.
Qed.

Lemma reconcile_unique cid l t :
  unique_memberships t → unique_memberships (reconcile cid l t).
Proof.
  intros Hnd. rewrite reconcile_unfold. apply upserts_unique.
  induction (elements _) as [|a ids IH] in t, Hnd |- *; [done|].
  cbn [foldl]. by apply IH, tbl_delete_unique.
Qed.

Lemma create_chatroom_unique req u d :
  unique_memberships (relations d) →
  unique_memberships (relations (create_chatroom req u d).2).
Proof.
  intros Hnd. unfold create_chatroom, bind, ret.
  destruct (truthy (name req)); cbn [negb]; [|done].
  destruct (none_or_empty (max_round req)); [done|].
  destruct (_ || _); [done|].
  destruct (check_agent_items (agent req)); [done|].
  cbn. by apply upserts_unique.
Qed.

Lemma update_chatroom_unique cid req u d :
  unique_memberships (relations d) →
  unique_memberships (relations (update_chatroom cid req u d).2).
Proof.
  intros Hnd.
  destruct (update_chatroom_rejected_or_accepted cid req u d)
    as [[key ->]|[Hok Hreq]]; [done|].
  rewrite update_chatroom_accepted by done. store_simpl.
  by apply reconcile_unique.
Qed.

Lemma toggle_auto_answer_switch_unique cid aid v u d :
  unique_memberships (relations d) →
  unique_memberships
    (relations (toggle_auto_answer_switch cid aid {| active := v |} u d).2).
Proof.
  intros Hnd.
  destruct (toggle_auto_answer_switch_rejected_or_accepted cid aid v u d)
    as [[key ->]|[Hpre Hv]]; [done|].
  rewrite toggle_auto_answer_switch_sets by done. store_simpl.
  by apply tbl_update_active_unique.
Qed.

Lemma delete_chatroom_unique cid u d :
  unique_memberships (relations d) →
  unique_memberships (relations (delete_chatroom cid u d).2).
Proof.
  intros Hnd. unfold delete_chatroom, bind, read, ret.
  destruct (cid =? 0); [done|].
  destruct (lk_status _); cbn [negb]; [|done].
  cbn. by apply tbl_delete_unique.
Qed.

(** set_smart_selection, history and details do not write to the
    membership store at all. *)
Lemma other_handlers_keep_relations cid u d :
  (∀ data, relations (toggle_smart_selection_switch cid data u d).2 = relations d) ∧
  (∀ page page_size, relations (chatroom_message cid page page_size u d).2
                     = relations d) ∧
  show_chatroom_details cid u d = ((show_chatroom_details cid u d).1, d).
Proof.
  unfold toggle_smart_selection_switch, chatroom_message, show_chatroom_details,
    bind, read, ret.
  split; [|split].
  - intros data. destruct (cid =? 0); [done|].
    destruct (lk_status _); cbn [negb]; [|done].
    destruct (none_or_empty _); [done|]. by destruct (in_0_1 _).
  - intros page page_size. by destruct (lk_status _).
  - by destruct (lk_status _).
Qed.

(** ** The application of a created room *)

Lemma tbl_select_insert conds data t :
  tbl_select conds (tbl_insert data t).2
  = (tbl_select conds t ++
     (if matches conds (<["id" := PInt (next_id t)]> data)
      then [<["id" := PInt (next_id t)]> data] else []))%list.
Proof.
  unfold tbl_select, tbl_insert. cbn [snd rows].
  rewrite List.filter_app. cbn [List.filter]. done.
Qed.

(** On a store whose auto-increment counters are ahead of the ids in
    use, create makes a room that its creator finds, linked to an
    application that belongs to the creator: the situation in which
    delete marks the room's application as deleted. *)
Lemma create_chatroom_links_owned_application (req : ReqChatroomCreateSchema) u d :
  request_accepted req →
  (∀ a, a ∈ rows (apps d) → col a "id" ≠ PInt (next_id (apps d))) →
  (∀ r, r ∈ rows (chatrooms d) → col r "id" ≠ PInt (next_id (chatrooms d))) →
  let out := create_chatroom req u d in
  let room := search_chatrooms_id (next_id (chatrooms d)) (uid u) out.2 in
  lk_status room = true ∧
  lk_app_id room = PInt (next_id (apps d)) ∧
  ∀ a, a ∈ rows (apps out.2) → col a "id" = lk_app_id room →
       col a "user_id" = PInt (uid u).
Proof.
  intros Hreq Happs Hrooms out room. subst out room.
  rewrite create_chatroom_accepted by done. unfold search_chatrooms_id. store_simpl.
  rewrite tbl_select_insert.
  replace (tbl_select _ (chatrooms d)) with (@nil row).
  2: { symmetry. apply tbl_select_nil. intros r Hr.
       apply not_true_is_false. intros Hm. apply matches_three in Hm as (Hid & _).
       by apply (Hrooms r). }
  cbn [app].
  assert (∀ (r0 : row) (n : Z), col (<["id" := PInt n]> r0) "id" = PInt n) as Hidcol
    by (intros; by rewrite col_insert, decide_True).
  match goal with |- context [matches ?c ?r] =>
    assert (matches c r = true) as ->
  end.
  { apply matches_three. rewrite Hidcol, !col_insert_ne by done.
    rewrite !col_insert. cbn. done. }
  cbn [lk_status lk_app_id]. split; [done|].
  rewrite col_insert_ne, !col_insert by done. cbn. split; [done|].
  unfold tbl_insert. cbn [snd rows]. intros a [Ha|Ha]%elem_of_app Hid.
  - by destruct (Happs a Ha).
  - apply list_elem_of_singleton in Ha as ->.
    rewrite col_insert_ne, !col_insert by done. done.
Qed.

(** * Further properties of the handlers *)

(** ** Outcomes *)

Lemma create_chatroom_rejected_or_accepted (req : ReqChatroomCreateSchema) u d :
  (∃ key, key ∈ validation_errors ∧ create_chatroom req u d = (response_error key, d)) ∨
  request_accepted req.
Proof.
  unfold create_chatroom, bind, ret, request_accepted, validation_errors,
    get_language_content.
  destruct (truthy (name req)); cbn [negb];
    [|left; eexists; split; [|done]; set_solver].
  destruct (none_or_empty (max_round req));
    [left; eexists; split; [|done]; set_solver|].
  destruct (list_falsy (agent req) || _) eqn:Hlen;
    [left; eexists; split; [|done]; set_solver|].
  destruct (check_agent_items (agent req)) as [key|] eqn:Hitems.
  - left. exists key. split; [|done].
    apply check_agent_items_Some in Hitems as [-> | ->]; set_solver.
  - right. repeat split; [|by apply check_agent_items_None].
    intros E. by rewrite E in Hlen.
Qed.

Lemma request_accepted_not_bad req :
  request_accepted req → ¬ bad_agent_list (agent req).
Proof.
  intros (_ & _ & Hne & Hall) [E|(it & Hin & Hbad)]; [done|].
  rewrite Forall_forall in Hall. by apply Hbad, Hall.
Qed.

Lemma delete_chatroom_rejected cid u d :
  cid = 0 ∨ lk_status (search_chatrooms_id cid (uid u) d) = false →
  ∃ key, delete_chatroom cid u d = (response_error key, d).
Proof.
  unfold delete_chatroom, bind, read, ret. intros [->|Hno]; [by eexists|].
  destruct (cid =? 0); [by eexists|]. rewrite Hno. by eexists.
Qed.

Lemma toggle_smart_selection_switch_rejected cid v u d :
  cid = 0 ∨ lk_status (search_chatrooms_id cid (uid u) d) = false ∨ in_0_1 v = false →
  ∃ key, toggle_smart_selection_switch cid {| smart_selection := v |} u d
         = (response_error key, d).
Proof.
  unfold toggle_smart_selection_switch, bind, read, ret. cbn [smart_selection].
  intros H. destruct (cid =? 0) eqn:Hcid; [by eexists|].
  destruct (lk_status _); cbn [negb]; [|by eexists].
  destruct (none_or_empty v); [by eexists|].
  destruct (in_0_1 v); cbn [negb]; [|by eexists].
  apply Z.eqb_neq in Hcid. by destruct H as [?|[?|?]].
Qed.

Lemma toggle_smart_selection_switch_accepted cid v u d :
  cid ≠ 0 → lk_status (search_chatrooms_id cid (uid u) d) = true →
  v = PInt 0 ∨ v = PInt 1 →
  toggle_smart_selection_switch cid {| smart_selection := v |} u d
  = (response_success NoData None None,
     set_chatrooms
       (tbl_update [("id", PInt cid)] {["smart_selection" := v]} (chatrooms d)) d).
Proof.
  intros Hcid Hok Hv.
  unfold toggle_smart_selection_switch, bind, read, ret. cbn [smart_selection].
  apply Z.eqb_neq in Hcid. rewrite Hcid, Hok.
  by destruct Hv as [-> | ->].
Qed.

Lemma in_0_1_spec v : in_0_1 v = true ↔ v = PInt 0 ∨ v = PInt 1.
Proof. unfold in_0_1. by rewrite orb_true_iff, !bool_decide_eq_true. Qed.

(** X1: an error envelope means that nothing was written.  Whatever the
    arguments and the store, a handler that answers with
    [response_error] leaves the store exactly as it found it; details
    leaves it alone in every case. *)
Theorem error_responses_leave_the_store_unchanged u d :
  (∀ req, success (create_chatroom req u d).1 = false →
          (create_chatroom req u d).2 = d) ∧
  (∀ cid req, success (update_chatroom cid req u d).1 = false →
              (update_chatroom cid req u d).2 = d) ∧
  (∀ cid, success (delete_chatroom cid u d).1 = false →
          (delete_chatroom cid u d).2 = d) ∧
  (∀ cid data, success (toggle_smart_selection_switch cid data u d).1 = false →
               (toggle_smart_selection_switch cid data u d).2 = d) ∧
  (∀ cid aid setting, success (toggle_auto_answer_switch cid aid setting u d).1 = false →
                      (toggle_auto_answer_switch cid aid setting u d).2 = d) ∧
  (∀ cid page page_size, success (chatroom_message cid page page_size u d).1 = false →
                         (chatroom_message cid page page_size u d).2 = d) ∧
  (∀ cid, (show_chatroom_details cid u d).2 = d).
Proof.
  repeat split.
  - intros req.
    destruct (create_chatroom_rejected_or_accepted req u d) as [(key & _ & ->)|Hreq];
      [done|].
    by rewrite create_chatroom_accepted.
  - intros cid req.
    destruct (update_chatroom_rejected_or_accepted cid req u d) as [[key ->]|[Hok Hreq]];
      [done|].
    by rewrite update_chatroom_accepted.
  - intros cid.
    destruct (decide (cid = 0)) as [Hcid|Hcid];
      [by destruct (delete_chatroom_rejected cid u d (or_introl Hcid)) as [key ->]|].
    destruct (lk_status (search_chatrooms_id cid (uid u) d)) eqn:Hok;
      [|by destruct (delete_chatroom_rejected cid u d (or_intror Hok)) as [key ->]].
    by rewrite delete_chatroom_found.
  - intros cid [v].
    destruct (decide (cid = 0)) as [Hcid|Hcid];
      [by destruct (toggle_smart_selection_switch_rejected cid v u d (or_introl Hcid))
         as [key ->]|].
    destruct (lk_status (search_chatrooms_id cid (uid u) d)) eqn:Hok;
      [|by destruct (toggle_smart_selection_switch_rejected cid v u d
                       (or_intror (or_introl Hok))) as [key ->]].
    destruct (in_0_1 v) eqn:Hv;
      [|by destruct (toggle_smart_selection_switch_rejected cid v u d
                       (or_intror (or_intror Hv))) as [key ->]].
    apply in_0_1_spec in Hv. by rewrite toggle_smart_selection_switch_accepted.
  - intros cid aid [v].
    destruct (toggle_auto_answer_switch_rejected_or_accepted cid aid v u d)
      as [[key ->]|[Hpre Hv]]; [done|].
    by rewrite toggle_auto_answer_switch_sets.
  - intros cid page page_size.
    destruct (lk_status (search_chatrooms_id cid (uid u) d)) eqn:Hok.
    + by rewrite chatroom_message_found.
    + unfold chatroom_message, bind, read, ret. by rewrite Hok.
  - intros cid. unfold show_chatroom_details, bind, read, ret.
    by destruct (lk_status _).
Qed.

Lemma error_responses_leave_the_store_unchanged_witness :
  (toggle_auto_answer_switch 1 9 {| active := PInt 1 |} alice db1).2 = db1 ∧
  (delete_chatroom 5 alice db1).2 = db1.
Proof.
  pose proof (error_responses_leave_the_store_unchanged alice db1)
    as (_ & _ & Hdel & _ & Htog & _).
  split; [apply Htog|apply Hdel]; reflexivity.
Defined.

(** X2: create succeeds exactly when the body passes the four checks
    (name not empty, max_round present, agent list not empty, every
    entry a dict with [agent_id] and [active]); update succeeds exactly
    when, in addition, the room is found.  Nothing else (the values of
    [agent_id] and [active], the description) plays a part. *)
Theorem create_and_update_success_criteria cid (req : ReqChatroomCreateSchema) u d :
  (success (create_chatroom req u d).1 = true ↔ request_accepted req) ∧
  (success (update_chatroom cid req u d).1 = true ↔
   lk_status (search_chatrooms_id cid (uid u) d) = true ∧ request_accepted req).
Proof.
  split; split.
  - destruct (create_chatroom_rejected_or_accepted req u d) as [(key & _ & ->)|Hreq];
      [done|by intros _].
  - intros Hreq. by rewrite create_chatroom_accepted.
  - destruct (update_chatroom_rejected_or_accepted cid req u d) as [[key ->]|Hacc];
      [done|by intros _].
  - intros [Hok Hreq]. by rewrite update_chatroom_accepted.
Qed.

(** X3: set_agent_active succeeds exactly when the room is found, the
    agent exists, the agent is a member of the room, and the new value
    is 1, or is 0 while the room has at least two active memberships. *)
Theorem set_agent_active_success_criterion cid aid v u d :
  success (toggle_auto_answer_switch cid aid {| active := v |} u d).1 = true ↔
  setting_reachable cid aid u d ∧
  (v = PInt 1 ∨
   (v = PInt 0 ∧ (2 ≤ length (get_active_agents_by_chatroom_id cid d))%nat)).
Proof.
  split.
  - destruct (toggle_auto_answer_switch_rejected_or_accepted cid aid v u d)
      as [[key ->]|Hacc]; [done|by intros _].
  - intros [Hpre Hv]. by rewrite toggle_auto_answer_switch_sets.
Qed.

(** X4: the per-item loop stops at the first entry that is not well
    shaped and reports that entry's defect: not-a-dictionary when it is
    not a dict, missing-keys when it is a dict without [agent_id] or
    [active]; what comes after that entry is never looked at. *)
Theorem check_agent_items_reports_the_first_offender good bad rest :
  Forall well_shaped good → ¬ well_shaped bad →
  check_agent_items (good ++ bad :: rest) =
  Some (match bad with
        | NotDict _ => "chatroom_agent_item_must_be_a_dictionary"
        | Dict _ => "chatroom_agent_item_missing_keys"
        end).
Proof.
  intros Hgood Hbad. induction Hgood as [|[v|g] good Hg _ IH]; cbn.
  - destruct bad as [v|b]; [done|]. cbn in Hbad.
    rewrite bool_decide_eq_true_2; [done|]. by rewrite missing_keys_empty.
  - done.
  - cbn in Hg. rewrite bool_decide_eq_false_2; [done|].
    intros Hne. by apply Hne, missing_keys_empty.
Qed.

Lemma check_agent_items_reports_the_first_offender_witness :
  check_agent_items
    [entry (PInt 1) (PInt 1); Dict {["agent_id" := PInt 2]}; NotDict (PStr "x")]
  = Some "chatroom_agent_item_missing_keys".
Proof.
  apply (check_agent_items_reports_the_first_offender
           [entry (PInt 1) (PInt 1)] (Dict {["agent_id" := PInt 2]})
           [NotDict (PStr "x")]).
  - repeat constructor; apply entry_well_shaped.
  - intros [_ H]. apply elem_of_dom in H as [x Hx]. vm_compute in Hx. discriminate Hx.
Defined.

(** ** Create *)

Lemma get_agents_nil cid d :
  get_agents_by_chatroom_id cid d = [] ↔
  ∀ r, r ∈ rows (relations d) → col r "chatroom_id" ≠ PInt cid.
Proof.
  unfold get_agents_by_chatroom_id. rewrite tbl_select_nil.
  split; intros H r Hr.
  - specialize (H r Hr). by rewrite matches_one, bool_decide_eq_false in H.
  - rewrite matches_one, bool_decide_eq_false. by apply H.
Qed.

Lemma create_chatroom_memberships (req : ReqChatroomCreateSchema) u d :
  request_accepted req →
  get_agents_by_chatroom_id (next_id (chatrooms d)) d = [] →
  ∀ r, r ∈ get_agents_by_chatroom_id (next_id (chatrooms d)) (create_chatroom req u d).2 →
       ∃ v, final_active (agent req) (col r "agent_id") = Some v ∧
            r !! "active" = Some v.
Proof.
  intros Hreq Hfresh r. rewrite create_chatroom_accepted by done.
  unfold get_agents_by_chatroom_id. store_simpl.
  intros [Hin Hm]%tbl_select_elem. rewrite matches_one, bool_decide_eq_true in Hm.
  destruct (upserts_rows _ _ _ _ Hin Hm) as [Hv|[_ Hold]]; [done|].
  rewrite get_agents_nil in Hfresh. by destruct (Hfresh r Hold).
Qed.

(** X5: create attaches exactly the agents of the list to the new room.
    When no membership row carries the id the new room gets, a create
    call that passes the checks returns that id, the set of agent ids
    attached to the new room equals the set of agent ids of the list,
    every membership row of the room holds the [active] value of its
    agent's last entry, and the memberships of all other rooms, the
    messages and the agents are untouched. *)
Theorem create_attaches_the_listed_agents (req : ReqChatroomCreateSchema) u d :
  request_accepted req →
  get_agents_by_chatroom_id (next_id (chatrooms d)) d = [] →
  let out := create_chatroom req u d in
  let new_id := next_id (chatrooms d) in
  out.1 = response_success (ChatroomId new_id) None None ∧
  room_agent_ids new_id out.2 = request_agent_ids (agent req) ∧
  (∀ r, r ∈ get_agents_by_chatroom_id new_id out.2 →
        final_active (agent req) (col r "agent_id") = Some (col r "active")) ∧
  (∀ c, c ≠ new_id →
        get_agents_by_chatroom_id c out.2 = get_agents_by_chatroom_id c d) ∧
  messages out.2 = messages d ∧ agents out.2 = agents d.
Proof.
  intros Hreq Hfresh out new_id. subst out new_id.
  pose proof (create_chatroom_memberships req u d Hreq Hfresh) as Hrows.
  rewrite create_chatroom_accepted in * by done.
  split; [done|]. split; [|split; [|split; [|done]]].
  - apply set_eq. intros a. split.
    + unfold room_agent_ids. rewrite elem_of_list_to_set, list_elem_of_fmap.
      intros (r & -> & Hr). destruct (Hrows r Hr) as (v & Hv & _).
      apply final_active_is_Some. by exists v.
    + unfold request_agent_ids at 1.
      rewrite elem_of_list_to_set, list_elem_of_fmap. intros (it & -> & Hin).
      unfold room_agent_ids, get_agents_by_chatroom_id. store_simpl.
      fold (table_agent_ids (next_id (chatrooms d))
              (foldl (upsert_agent (next_id (chatrooms d))) (relations d) (agent req))).
      by apply upserts_adds.
  - intros r Hr. destruct (Hrows r Hr) as (v & -> & Hact).
    unfold col. by rewrite Hact.
  - intros c Hc. unfold get_agents_by_chatroom_id, tbl_select. store_simpl.
    apply upserts_frame.
    + intros r. rewrite matches_one, bool_decide_eq_true. intros -> [=]. done.
    + intros r v. by rewrite !matches_one, col_insert_ne.
Qed.

Lemma create_attaches_the_listed_agents_witness :
  room_agent_ids 1
    (create_chatroom (room_request [entry (PInt 1) (PInt 1); entry (PInt 2) (PInt 0)])
       alice db0).2
  = request_agent_ids [entry (PInt 1) (PInt 1); entry (PInt 2) (PInt 0)].
Proof.
  assert (request_accepted
            (room_request [entry (PInt 1) (PInt 1); entry (PInt 2) (PInt 0)])) as Hreq.
  { apply room_request_accepted; [done|]. repeat constructor; apply entry_well_shaped. }
  assert (get_agents_by_chatroom_id (next_id (chatrooms db0)) db0 = []) as Hfresh
    by reflexivity.
  exact (proj1 (proj2 (create_attaches_the_listed_agents _ alice db0 Hreq Hfresh))).
Defined.

(** X6: neither create nor update enforces the one-active-agent rule.
    When no entry of an accepted list has [active = 1], the room ends up
    with memberships and without an active one: after update on a room
    that is found, and after create when no membership row carried the
    new room's id. *)
Theorem inactive_lists_leave_no_active_agent cid (req : ReqChatroomCreateSchema) u d :
  request_accepted req →
  (∀ it, it ∈ agent req → item_get it "active" ≠ PInt 1) →
  (lk_status (search_chatrooms_id cid (uid u) d) = true →
   get_agents_by_chatroom_id cid (update_chatroom cid req u d).2 ≠ [] ∧
   get_active_agents_by_chatroom_id cid (update_chatroom cid req u d).2 = []) ∧
  (get_agents_by_chatroom_id (next_id (chatrooms d)) d = [] →
   get_agents_by_chatroom_id (next_id (chatrooms d)) (create_chatroom req u d).2 ≠ [] ∧
   get_active_agents_by_chatroom_id (next_id (chatrooms d)) (create_chatroom req u d).2
   = []).
Proof.
  intros Hreq Hinactive.
  assert (∀ a, final_active (agent req) a ≠ Some (PInt 1)) as Hfinal.
  { intros a. unfold final_active. intros Hlast.
    apply fmap_Some in Hlast as (it & Hlast & Hact).
    apply last_Some_elem_of, list_elem_of_filter in Hlast as [_ Hin].
    by apply (Hinactive it). }
  assert (∃ it, it ∈ agent req) as [it0 Hit0].
  { destruct Hreq as (_ & _ & Hne & _). destruct (agent req) as [|it l]; [done|].
    exists it. by left. }
  split.
  - intros Hok. split.
    + intros E.
      assert (item_get it0 "agent_id" ∈ room_agent_ids cid (update_chatroom cid req u d).2)
        as Hin.
      { rewrite update_chatroom_accepted by done. unfold room_agent_ids,
          get_agents_by_chatroom_id. store_simpl.
        fold (table_agent_ids cid (reconcile cid (agent req) (relations d))).
        rewrite reconcile_agent_ids. by apply elem_of_request_agent_ids. }
      unfold room_agent_ids in Hin. rewrite E in Hin. by apply not_elem_of_empty in Hin.
    + rewrite update_chatroom_accepted by done.
      unfold get_active_agents_by_chatroom_id. store_simpl.
      apply tbl_select_nil. intros r Hr. apply not_true_is_false. intros Hm.
      rewrite matches_two, andb_true_iff, !bool_decide_eq_true in Hm.
      destruct Hm as [Hroom Hact].
      destruct (reconcile_rows cid (agent req) (relations d) r Hr Hroom)
        as (v & Hv & Hv').
      unfold col in Hact. rewrite Hv' in Hact. cbn in Hact. subst v.
      by apply (Hfinal (default PNone (r !! "agent_id"))).
  - intros Hfresh.
    pose proof (create_chatroom_memberships req u d Hreq Hfresh) as Hrows. split.
    + intros E.
      assert (item_get it0 "agent_id"
                ∈ room_agent_ids (next_id (chatrooms d)) (create_chatroom req u d).2)
        as Hin.
      { rewrite create_chatroom_accepted by done. unfold room_agent_ids,
          get_agents_by_chatroom_id. store_simpl.
        fold (table_agent_ids (next_id (chatrooms d))
                (foldl (upsert_agent (next_id (chatrooms d))) (relations d) (agent req))).
        by apply upserts_adds. }
      unfold room_agent_ids in Hin. rewrite E in Hin. by apply not_elem_of_empty in Hin.
    + unfold get_active_agents_by_chatroom_id. apply tbl_select_nil.
      intros r Hr. apply not_true_is_false. intros Hm.
      rewrite matches_two, andb_true_iff, !bool_decide_eq_true in Hm.
      destruct Hm as [Hroom Hact].
      destruct (Hrows r) as (v & Hv & Hv').
      { unfold get_agents_by_chatroom_id. apply tbl_select_elem. split; [done|].
        by rewrite matches_one, bool_decide_eq_true. }
      unfold col in Hact. rewrite Hv' in Hact. cbn in Hact. subst v.
      by apply (Hfinal (col r "agent_id")).
Qed.

Lemma inactive_lists_leave_no_active_agent_witness :
  get_agents_by_chatroom_id 1
    (update_chatroom 1 (room_request [entry (PInt 2) (PInt 0); entry (PInt 3) (PInt 7)])
       alice db1).2 ≠ [] ∧
  get_active_agents_by_chatroom_id 1
    (update_chatroom 1 (room_request [entry (PInt 2) (PInt 0); entry (PInt 3) (PInt 7)])
       alice db1).2 = [].
Proof.
  assert (request_accepted
            (room_request [entry (PInt 2) (PInt 0); entry (PInt 3) (PInt 7)])) as Hreq.
  { apply room_request_accepted; [done|]. repeat constructor; apply entry_well_shaped. }
  apply (inactive_lists_leave_no_active_agent 1 _ alice db1 Hreq).
  - intros it Hin. cbn in Hin.
    repeat (apply elem_of_cons in Hin as [->|Hin]; [by vm_compute|]).
    by apply elem_of_nil in Hin.
  - reflexivity.
Defined.

Lemma col_insert_eq (r : row) k v : col (<[k := v]> r) k = v.
Proof. by rewrite col_insert, decide_True. Qed.

Lemma map_is_fmap {A B} (f : A → B) (l : list A) : map f l = f <$> l.
Proof. induction l as [|x l IH]; [done|]. cbn. by rewrite IH. Qed.

Lemma col_singleton_eq k v : col ({[k := v]} : row) k = v.
Proof. unfold col. by rewrite lookup_singleton_eq. Qed.

Lemma col_singleton_ne k k' v : k ≠ k' → col ({[k := v]} : row) k' = PNone.
Proof. intros. unfold col. by rewrite lookup_singleton_ne. Qed.

Ltac col_simpl :=
  repeat first
    [ rewrite col_insert_eq | rewrite col_insert_ne by done
    | rewrite col_singleton_eq | rewrite col_singleton_ne by done ].

Lemma tbl_select_insert_fresh c data t :
  (∀ r, r ∈ rows t → col r "id" ≠ PInt (next_id t)) →
  tbl_select (("id", PInt (next_id t)) :: c) (tbl_insert data t).2
  = if matches c (<["id" := PInt (next_id t)]> data)
    then [<["id" := PInt (next_id t)]> data] else [].
Proof.
  intros Hfresh. rewrite tbl_select_insert.
  replace (tbl_select _ t) with (@nil row).
  2: { symmetry. apply tbl_select_nil. intros r Hr. apply not_true_is_false.
       rewrite matches_true. intros Hm. apply (Hfresh r Hr).
       apply (Hm ("id", PInt (next_id t))). by left. }
  cbn [app]. unfold matches at 1. cbn [forallb fst snd].
  by rewrite col_insert_eq, bool_decide_eq_true_2.
Qed.

(** X7: what create stored is what details shows.  On a store whose
    auto-increment counters are ahead of the ids in use, a details call
    by the creator on the id that create returned succeeds and carries
    the [max_round] that was sent, the application record with the name
    and description that were sent (owned by the creator, mode 5, status
    1), and one entry per membership of the new room. *)
Theorem created_room_shows_what_was_sent (req : ReqChatroomCreateSchema) u d :
  request_accepted req →
  (∀ a, a ∈ rows (apps d) → col a "id" ≠ PInt (next_id (apps d))) →
  (∀ r, r ∈ rows (chatrooms d) → col r "id" ≠ PInt (next_id (chatrooms d))) →
  let out := create_chatroom req u d in
  let new_id := next_id (chatrooms d) in
  ∃ app agent_list smart room_status,
    show_chatroom_details new_id u out.2
    = (response_success
         (Details (Some app) agent_list (max_round req) smart room_status) None None,
       out.2) ∧
    col app "id" = PInt (next_id (apps d)) ∧
    col app "name" = name req ∧ col app "description" = description req ∧
    col app "user_id" = PInt (uid u) ∧ col app "team_id" = PInt (team_id u) ∧
    col app "mode" = PInt 5 ∧ col app "status" = PInt 1 ∧
    (λ r : row, col r "agent_id") <$> agent_list
    = (λ r : row, col r "agent_id") <$> get_agents_by_chatroom_id new_id out.2.
Proof.
  intros Hreq Happs Hrooms out new_id. subst out new_id.
  rewrite create_chatroom_accepted by done.
  unfold show_chatroom_details, bind, read, ret, search_chatrooms_id, get_app_by_id.
  store_simpl.
  rewrite (tbl_select_insert_fresh _ _ (chatrooms d)) by done.
  match goal with |- context [matches ?c ?r] =>
    assert (matches c r = true) as ->
  end.
  { unfold matches. cbn [forallb fst snd]. col_simpl.
    by rewrite !bool_decide_eq_true_2. }
  cbn [lk_status negb lk_app_id lk_max_round lk_smart_selection lk_chatroom_status].
  col_simpl. store_simpl.
  rewrite (tbl_select_insert_fresh [] _ (apps d)) by done.
  cbn [matches forallb head].
  eexists _, _, _, _. split; [reflexivity|]. col_simpl.
  repeat (split; [reflexivity|]).
  unfold show_chatroom_agent. rewrite map_map, map_is_fmap, <- list_fmap_compose.
  apply list_fmap_ext. intros i r _. cbn.
  case_bool_decide; by col_simpl.
Qed.

Lemma created_room_shows_what_was_sent_witness :
  ∃ app agent_list smart room_status,
    show_chatroom_details 2 alice
      (create_chatroom (room_request [entry (PInt 3) (PInt 1)]) alice db1).2
    = (response_success (Details (Some app) agent_list (PInt 10) smart room_status)
         None None,
       (create_chatroom (room_request [entry (PInt 3) (PInt 1)]) alice db1).2) ∧
    col app "name" = PStr "room".
Proof.
  assert (request_accepted (room_request [entry (PInt 3) (PInt 1)])) as Hreq.
  { apply room_request_accepted; [done|]. repeat constructor; apply entry_well_shaped. }
  destruct (created_room_shows_what_was_sent _ alice db1 Hreq)
    as (app & agent_list & smart & room_status & Hresp & _ & Hname & _).
  - intros a Ha. vm_compute in Ha.
    apply elem_of_cons in Ha as [->|Ha]; [by vm_compute|]. by apply elem_of_nil in Ha.
  - intros r Hr. vm_compute in Hr.
    apply elem_of_cons in Hr as [->|Hr]; [by vm_compute|]. by apply elem_of_nil in Hr.
  - exists app, agent_list, smart, room_status. split; [exact Hresp|exact Hname].
Defined.

(** ** Settings *)

(** The room lookup after a write of column [k] to the rows with the
    room's id: the room is found as before and reports the value
    written. *)
Lemma search_chatrooms_id_after_column cid uid k v d d' :
  chatrooms d' = tbl_update [("id", PInt cid)] {[k := v]} (chatrooms d) →
  k ≠ "id" → k ≠ "user_id" → k ≠ "status" →
  lk_status (search_chatrooms_id cid uid d') = lk_status (search_chatrooms_id cid uid d) ∧
  (lk_status (search_chatrooms_id cid uid d) = true →
   ∃ r, r ∈ rows (chatrooms d) ∧
        search_chatrooms_id cid uid d
        = ChatroomLookup true (col r "app_id") (col r "max_round")
            (col r "smart_selection") (col r "chatroom_status") ∧
        search_chatrooms_id cid uid d'
        = ChatroomLookup true (col (<[k := v]> r) "app_id")
            (col (<[k := v]> r) "max_round") (col (<[k := v]> r) "smart_selection")
            (col (<[k := v]> r) "chatroom_status")).
Proof.
  intros Hrooms H1 H2 H3. unfold search_chatrooms_id. rewrite Hrooms.
  rewrite tbl_select_update.
  2: { intros r0. rewrite singleton_union. unfold matches. cbn [forallb fst snd].
       by rewrite !col_insert_ne. }
  destruct (tbl_select _ (chatrooms d)) as [|r l] eqn:E; [done|].
  cbn [map lk_status]. split; [done|]. intros _.
  assert (r ∈ tbl_select [("id", PInt cid); ("user_id", PInt uid); ("status", PInt 1)]
                (chatrooms d)) as Hin by (rewrite E; by left).
  apply tbl_select_elem in Hin as [Hin Hm]. apply matches_three in Hm as (Hid & _).
  exists r. split; [done|]. split; [done|].
  by rewrite matches_one, bool_decide_eq_true_2, singleton_union.
Qed.

(** X8: set_smart_selection writes the flag and the room reports it.
    On a room that is found, with a value that is 0 or 1, the call
    succeeds, sets [smart_selection] in the room's row and in no other
    column or table, and a lookup of the room afterwards finds it and
    reports the value just written; any other value is refused without
    a write. *)
Theorem smart_selection_is_written_and_read_back cid v u d :
  cid ≠ 0 →
  lk_status (search_chatrooms_id cid (uid u) d) = true →
  let out := toggle_smart_selection_switch cid {| smart_selection := v |} u d in
  (v = PInt 0 ∨ v = PInt 1 →
   out.1 = response_success NoData None None ∧
   lk_status (search_chatrooms_id cid (uid u) out.2) = true ∧
   lk_smart_selection (search_chatrooms_id cid (uid u) out.2) = v ∧
   lk_app_id (search_chatrooms_id cid (uid u) out.2)
   = lk_app_id (search_chatrooms_id cid (uid u) d) ∧
   lk_max_round (search_chatrooms_id cid (uid u) out.2)
   = lk_max_round (search_chatrooms_id cid (uid u) d) ∧
   column_set (λ r, col r "id" = PInt cid) "smart_selection" v
     (chatrooms d) (chatrooms out.2) ∧
   apps out.2 = apps d ∧ relations out.2 = relations d ∧
   messages out.2 = messages d ∧ agents out.2 = agents d) ∧
  (v ≠ PInt 0 → v ≠ PInt 1 →
   success out.1 = false ∧ out.2 = d).
Proof.
  intros Hcid Hok out. subst out. split.
  - intros Hv. rewrite toggle_smart_selection_switch_accepted by done. store_simpl.
    set (d' := {| apps := apps d;
                  chatrooms := tbl_update [("id", PInt cid)] {["smart_selection" := v]}
                                 (chatrooms d);
                  relations := relations d; messages := messages d;
                  agents := agents d |}).
    destruct (search_chatrooms_id_after_column cid (uid u) "smart_selection" v d d')
      as [Hst Hfound]; [done..|].
    destruct (Hfound Hok) as (r & _ & Hbefore & Hafter).
    rewrite Hafter, Hbefore. cbn [lk_status lk_smart_selection lk_app_id lk_max_round].
    rewrite col_insert_eq, !col_insert_ne by done.
    repeat (split; [done|]). split; [apply tbl_update_one_column|done].
  - intros H0 H1.
    destruct (toggle_smart_selection_switch_rejected cid v u d) as [key ->]; [|done].
    right. right. unfold in_0_1. by rewrite !bool_decide_eq_false_2.
Qed.

Lemma smart_selection_is_written_and_read_back_witness :
  lk_smart_selection
    (search_chatrooms_id 1 (uid alice)
       (toggle_smart_selection_switch 1 {| smart_selection := PInt 1 |} alice db1).2)
  = PInt 1 ∧
  (toggle_smart_selection_switch 1 {| smart_selection := PInt 2 |} alice db1).2 = db1.
Proof.
  assert (1 ≠ 0) as Hid by lia.
  assert (lk_status (search_chatrooms_id 1 (uid alice) db1) = true) as Hok
    by reflexivity.
  split.
  - apply (proj1 (smart_selection_is_written_and_read_back 1 (PInt 1) alice db1 Hid Hok)).
    by right.
  - by apply (proj2 (smart_selection_is_written_and_read_back 1 (PInt 2) alice db1
                       Hid Hok)).
Defined.

Lemma tbl_update_overwrite conds k v w t :
  (∀ r, matches conds (<[k := v]> r) = matches conds r) →
  tbl_update conds {[k := w]} (tbl_update conds {[k := v]} t)
  = tbl_update conds {[k := w]} t.
Proof.
  intros Hind. unfold tbl_update. cbn [rows next_id]. f_equal. rewrite map_map.
  apply map_ext. intros r. rewrite !singleton_union.
  destruct (matches conds r) eqn:E; [|by rewrite E].
  by rewrite Hind, E, insert_insert_eq.
Qed.

(** X9: with set_smart_selection the last write wins: two accepted
    calls in a row leave the store that the second call alone would have
    left. *)
Theorem smart_selection_last_write_wins cid v w u d :
  cid ≠ 0 →
  lk_status (search_chatrooms_id cid (uid u) d) = true →
  v = PInt 0 ∨ v = PInt 1 → w = PInt 0 ∨ w = PInt 1 →
  toggle_smart_selection_switch cid {| smart_selection := w |} u
    (toggle_smart_selection_switch cid {| smart_selection := v |} u d).2
  = toggle_smart_selection_switch cid {| smart_selection := w |} u d.
Proof.
  intros Hcid Hok Hv Hw.
  rewrite (toggle_smart_selection_switch_accepted cid v) by done. cbn [snd].
  set (d' := set_chatrooms _ d).
  destruct (search_chatrooms_id_after_column cid (uid u) "smart_selection" v d d')
    as [Hst _]; [done..|].
  rewrite !toggle_smart_selection_switch_accepted by (done || by rewrite Hst).
  subst d'. store_simpl. rewrite tbl_update_overwrite; [done|].
  intros r. by rewrite !matches_one, col_insert_ne.
Qed.

Lemma smart_selection_last_write_wins_witness :
  toggle_smart_selection_switch 1 {| smart_selection := PInt 0 |} alice
    (toggle_smart_selection_switch 1 {| smart_selection := PInt 1 |} alice db1).2
  = toggle_smart_selection_switch 1 {| smart_selection := PInt 0 |} alice db1.
Proof.
  apply (smart_selection_last_write_wins 1 (PInt 1) (PInt 0) alice db1);
    [lia|reflexivity|by right|by left].
Defined.

(** ** set_agent_active *)

Lemma tbl_update_active_keys conds v t :
  membership_keys (tbl_update conds {["active" := v]} t) = membership_keys t.
Proof.
  unfold membership_keys, tbl_update. cbn [rows].
  rewrite <- list_fmap_compose. apply list_fmap_ext. intros i r _. cbn.
  destruct (matches conds r); [|done]. by rewrite singleton_union, !col_insert_ne.
Qed.

(** X10: turning an agent on is never refused by the guard.  A
    set_agent_active call with [active = 1] that passes the checks
    before the guard succeeds whatever the number of active memberships
    is (also when it is zero), sets [active] to 1 in the membership and
    nowhere else, and leaves the room with an active agent. *)
Theorem activation_is_never_refused cid aid u d :
  setting_reachable cid aid u d →
  let out := toggle_auto_answer_switch cid aid {| active := PInt 1 |} u d in
  out.1 = response_success NoData None None ∧
  column_set (λ r, col r "chatroom_id" = PInt cid ∧ col r "agent_id" = PInt aid)
    "active" (PInt 1) (relations d) (relations out.2) ∧
  (∃ r, r ∈ get_active_agents_by_chatroom_id cid out.2 ∧ col r "agent_id" = PInt aid) ∧
  apps out.2 = apps d ∧ chatrooms out.2 = chatrooms d ∧
  messages out.2 = messages d ∧ agents out.2 = agents d.
Proof.
  intros Hpre out. subst out.
  rewrite (toggle_auto_answer_switch_sets cid aid (PInt 1)) by auto. store_simpl.
  pose proof (tbl_update_two_columns "chatroom_id" (PInt cid) "agent_id" (PInt aid)
                "active" (PInt 1) (relations d)) as Hset.
  split; [done|]. split; [done|]. split; [|done].
  destruct Hpre as (_ & _ & _ & _ & Hrel).
  destruct (relation_present _ _ _ Hrel) as (r & Hin & H1 & H2).
  destruct (column_set_elem_rev _ _ _ _ _ _ Hset Hin) as [Hnew _].
  exists (<["active" := PInt 1]> r). split.
  - unfold get_active_agents_by_chatroom_id. store_simpl.
    apply tbl_select_elem. split; [by apply Hnew|].
    rewrite matches_two, andb_true_iff, !bool_decide_eq_true.
    by rewrite col_insert_eq, col_insert_ne.
  - by rewrite col_insert_ne.
Qed.

Lemma activation_is_never_refused_witness :
  (toggle_auto_answer_switch 1 2 {| active := PInt 1 |} alice db2).1
  = response_success NoData None None ∧
  ∃ r, r ∈ get_active_agents_by_chatroom_id 1
             (toggle_auto_answer_switch 1 2 {| active := PInt 1 |} alice db2).2 ∧
       col r "agent_id" = PInt 2.
Proof.
  assert (setting_reachable 1 2 alice db2) as Hpre.
  { repeat split; [lia|lia|by eexists]. }
  pose proof (activation_is_never_refused 1 2 alice db2 Hpre) as H. cbv zeta in H.
  destruct H as (Hresp & _ & Hact & _). exact (conj Hresp Hact).
Defined.

(** X11: set_agent_active never adds or removes a membership and never
    moves one to another room or agent.  Whatever the arguments and the
    outcome, the (room, agent) pairs of the membership table are the
    same before and after, and the applications, rooms, messages and
    agents are not written. *)
Theorem set_agent_active_keeps_the_memberships cid aid setting u d :
  let out := toggle_auto_answer_switch cid aid setting u d in
  membership_keys (relations out.2) = membership_keys (relations d) ∧
  (∀ c, room_agent_ids c out.2 = room_agent_ids c d) ∧
  apps out.2 = apps d ∧ chatrooms out.2 = chatrooms d ∧
  messages out.2 = messages d ∧ agents out.2 = agents d.
Proof.
  intros out. subst out. destruct setting as [v].
  destruct (toggle_auto_answer_switch_rejected_or_accepted cid aid v u d)
    as [[key ->]|[Hpre Hv]]; [done|].
  rewrite toggle_auto_answer_switch_sets by done. store_simpl.
  split; [apply tbl_update_active_keys|]. split; [|done].
  intros c. unfold room_agent_ids, get_agents_by_chatroom_id. store_simpl.
  rewrite tbl_select_update.
  2: { intros r. by rewrite singleton_union, !matches_one, col_insert_ne. }
  f_equal. rewrite <- list_fmap_compose.
  apply list_fmap_ext. intros i r _. cbn.
  destruct (matches _ r); [|done]. by rewrite singleton_union, col_insert_ne.
Qed.

Lemma setting_reachable_after_active cid aid u d conds v :
  setting_reachable cid aid u d →
  setting_reachable cid aid u
    (set_relations (tbl_update conds {["active" := v]} (relations d)) d).
Proof.
  intros (Hcid & Hok & Haid & Hagent & Hrel). repeat split; try done.
  unfold search_chatroom_agent_relation_id in *. store_simpl.
  apply existsb_exists in Hrel as (r & Hin & Hm). apply existsb_exists.
  exists (if matches conds r then {["active" := v]} ∪ r else r). split.
  - apply list_elem_of_In, tbl_update_elem. by apply list_elem_of_In.
  - destruct (matches conds r); [|done].
    rewrite matches_two in Hm |- *. by rewrite singleton_union, !col_insert_ne.
Qed.

(** X12: turning an active agent off and on again restores the store.
    If the room has at least two active memberships and the membership
    of the agent is active, a set_agent_active call with 0 followed by
    one with 1 both succeed and leave the store exactly as it was. *)
Theorem deactivating_then_activating_restores_the_store cid aid u d :
  setting_reachable cid aid u d →
  (2 ≤ length (get_active_agents_by_chatroom_id cid d))%nat →
  (∀ r, r ∈ rows (relations d) → col r "chatroom_id" = PInt cid →
        col r "agent_id" = PInt aid → col r "active" = PInt 1) →
  let off := toggle_auto_answer_switch cid aid {| active := PInt 0 |} u d in
  off.1 = response_success NoData None None ∧
  toggle_auto_answer_switch cid aid {| active := PInt 1 |} u off.2
  = (response_success NoData None None, d).
Proof.
  intros Hpre Hlen Hactive off. subst off.
  rewrite (toggle_auto_answer_switch_sets cid aid (PInt 0)) by auto. cbn [fst snd].
  split; [done|].
  rewrite (toggle_auto_answer_switch_sets cid aid (PInt 1));
    [|by apply setting_reachable_after_active|by left].
  f_equal. store_simpl. destruct d as [a c rel m ag]. cbn [relations]. f_equal.
  cbn [relations] in Hactive.
  unfold tbl_update. cbn [rows next_id]. destruct rel as [rs n]. cbn [rows next_id] in *.
  f_equal. rewrite map_map. rewrite <- (map_id rs) at 2.
  apply map_ext_in. intros r Hr%list_elem_of_In.
  destruct (matches _ r) eqn:Hm.
  - rewrite !singleton_union.
    assert (matches [("chatroom_id", PInt cid); ("agent_id", PInt aid)]
              (<["active" := PInt 0]> r) = true) as ->.
    { rewrite matches_two in Hm |- *. by rewrite !col_insert_ne. }
    rewrite insert_insert_eq. apply insert_id.
    rewrite matches_two, andb_true_iff, !bool_decide_eq_true in Hm.
    destruct Hm as [H1 H2]. specialize (Hactive r Hr H1 H2).
    unfold col in Hactive. by destruct (r !! "active"); simplify_eq/=.
  - by rewrite Hm.
Qed.

Lemma deactivating_then_activating_restores_the_store_witness :
  toggle_auto_answer_switch 1 2 {| active := PInt 1 |} alice
    (toggle_auto_answer_switch 1 2 {| active := PInt 0 |} alice db1).2
  = (response_success NoData None None, db1).
Proof.
  assert (setting_reachable 1 2 alice db1) as Hpre.
  { repeat split; [lia|lia|by eexists]. }
  apply (proj2 (deactivating_then_activating_restores_the_store 1 2 alice db1 Hpre
                  ltac:(vm_compute; lia)
                  ltac:(intros r Hr; vm_compute in Hr;
                        repeat (apply elem_of_cons in Hr as [->|Hr]; [by vm_compute|]);
                        by apply elem_of_nil in Hr))).
Defined.

(** X13: the guard keeps what it is there for.  On a store in which a
    (room, agent) pair has at most one membership row, a
    set_agent_active call (whatever its arguments and outcome) leaves
    every room that had an active agent with an active agent, and keeps
    the memberships unique. *)
Theorem set_agent_active_keeps_an_agent_active cid aid setting u d :
  unique_memberships (relations d) →
  let out := toggle_auto_answer_switch cid aid setting u d in
  unique_memberships (relations out.2) ∧
  ∀ c, some_agent_active c d → some_agent_active c out.2.
Proof.
  intros Huniq out. subst out. destruct setting as [v]. split.
  - by apply toggle_auto_answer_switch_unique.
  - intros c. by apply toggle_auto_answer_switch_keeps_an_agent_active.
Qed.

Lemma set_agent_active_keeps_an_agent_active_witness :
  some_agent_active 1
    (toggle_auto_answer_switch 1 1 {| active := PInt 0 |} alice db1).2.
Proof.
  assert (unique_memberships (relations db1)) as Huniq.
  { unfold unique_memberships.
    apply (bool_decide_unpack (NoDup _)). by vm_compute. }
  apply (proj2 (set_agent_active_keeps_an_agent_active 1 1 {| active := PInt 0 |}
                  alice db1 Huniq)).
  intros _. by vm_compute.
Defined.

(** ** Invariants and frames *)

(** X14: no handler ever gives a (room, agent) pair a second membership
    row.  If the pairs of the membership table are pairwise distinct
    before a call of create, update, delete, set_smart_selection,
    set_agent_active, history or details, they are after it, whatever
    the arguments (so also for an agent list that names an agent
    twice). *)
Theorem handlers_keep_memberships_unique u d :
  unique_memberships (relations d) →
  (∀ req, unique_memberships (relations (create_chatroom req u d).2)) ∧
  (∀ cid req, unique_memberships (relations (update_chatroom cid req u d).2)) ∧
  (∀ cid, unique_memberships (relations (delete_chatroom cid u d).2)) ∧
  (∀ cid data,
     unique_memberships (relations (toggle_smart_selection_switch cid data u d).2)) ∧
  (∀ cid aid setting,
     unique_memberships (relations (toggle_auto_answer_switch cid aid setting u d).2)) ∧
  (∀ cid page page_size,
     unique_memberships (relations (chatroom_message cid page page_size u d).2)) ∧
  (∀ cid, unique_memberships (relations (show_chatroom_details cid u d).2)).
Proof.
  intros Huniq.
  pose proof (other_handlers_keep_relations) as Hother.
  repeat split.
  - intros req. by apply create_chatroom_unique.
  - intros cid req. by apply update_chatroom_unique.
  - intros cid. by apply delete_chatroom_unique.
  - intros cid data. by rewrite (proj1 (Hother cid u d)).
  - intros cid aid [v]. by apply toggle_auto_answer_switch_unique.
  - intros cid page page_size. by rewrite (proj1 (proj2 (Hother cid u d))).
  - intros cid. by rewrite (proj2 (proj2 (Hother cid u d))).
Qed.

Lemma handlers_keep_memberships_unique_witness :
  unique_memberships
    (relations
       (update_chatroom 1
          (room_request [entry (PInt 2) (PInt 1); entry (PInt 3) (PInt 1);
                         entry (PInt 3) (PInt 0)]) alice db1).2).
Proof.
  assert (unique_memberships (relations db1)) as Huniq.
  { unfold unique_memberships.
    apply (bool_decide_unpack (NoDup _)). by vm_compute. }
  apply (proj1 (proj2 (handlers_keep_memberships_unique alice db1 Huniq))).
Defined.

(** X15: which tables a handler never writes.  The agents table is
    written by no handler and the message table by history only:
    create, update, delete, set_smart_selection and set_agent_active
    leave both as they are, history leaves the agents, details leaves
    everything.  set_smart_selection and history also leave the
    memberships and the applications alone. *)
Theorem handlers_write_only_their_tables u d :
  (∀ req, agents (create_chatroom req u d).2 = agents d ∧
          messages (create_chatroom req u d).2 = messages d) ∧
  (∀ cid req, agents (update_chatroom cid req u d).2 = agents d ∧
              messages (update_chatroom cid req u d).2 = messages d) ∧
  (∀ cid, agents (delete_chatroom cid u d).2 = agents d ∧
          messages (delete_chatroom cid u d).2 = messages d) ∧
  (∀ cid data,
     agents (toggle_smart_selection_switch cid data u d).2 = agents d ∧
     messages (toggle_smart_selection_switch cid data u d).2 = messages d ∧
     relations (toggle_smart_selection_switch cid data u d).2 = relations d ∧
     apps (toggle_smart_selection_switch cid data u d).2 = apps d) ∧
  (∀ cid page page_size,
     agents (chatroom_message cid page page_size u d).2 = agents d ∧
     relations (chatroom_message cid page page_size u d).2 = relations d ∧
     apps (chatroom_message cid page page_size u d).2 = apps d) ∧
  (∀ cid aid setting,
     agents (toggle_auto_answer_switch cid aid setting u d).2 = agents d ∧
     messages (toggle_auto_answer_switch cid aid setting u d).2 = messages d) ∧
  (∀ cid, (show_chatroom_details cid u d).2 = d).
Proof.
  repeat split.
  - destruct (create_chatroom_rejected_or_accepted req u d) as [(key & _ & ->)|Hreq];
      [done|]. by rewrite create_chatroom_accepted.
  - destruct (create_chatroom_rejected_or_accepted req u d) as [(key & _ & ->)|Hreq];
      [done|]. by rewrite create_chatroom_accepted.
  - destruct (update_chatroom_rejected_or_accepted cid req u d) as [[key ->]|[? ?]];
      [done|]. by rewrite update_chatroom_accepted.
  - destruct (update_chatroom_rejected_or_accepted cid req u d) as [[key ->]|[? ?]];
      [done|]. by rewrite update_chatroom_accepted.
  - unfold delete_chatroom, bind, read, ret. destruct (cid =? 0); [done|].
    by destruct (lk_status _).
  - unfold delete_chatroom, bind, read, ret. destruct (cid =? 0); [done|].
    by destruct (lk_status _).
  - unfold toggle_smart_selection_switch, bind, read, ret. destruct (cid =? 0); [done|].
    destruct (lk_status _); [|done]. destruct (none_or_empty _); [done|].
    by destruct (in_0_1 _).
  - unfold toggle_smart_selection_switch, bind, read, ret. destruct (cid =? 0); [done|].
    destruct (lk_status _); [|done]. destruct (none_or_empty _); [done|].
    by destruct (in_0_1 _).
  - unfold toggle_smart_selection_switch, bind, read, ret. destruct (cid =? 0); [done|].
    destruct (lk_status _); [|done]. destruct (none_or_empty _); [done|].
    by destruct (in_0_1 _).
  - unfold toggle_smart_selection_switch, bind, read, ret. destruct (cid =? 0); [done|].
    destruct (lk_status _); [|done]. destruct (none_or_empty _); [done|].
    by destruct (in_0_1 _).
  - unfold chatroom_message, bind, read, ret. by destruct (lk_status _).
  - unfold chatroom_message, bind, read, ret. by destruct (lk_status _).
  - unfold chatroom_message, bind, read, ret. by destruct (lk_status _).
  - destruct setting as [v].
    destruct (toggle_auto_answer_switch_rejected_or_accepted cid aid v u d)
      as [[key ->]|[? ?]]; [done|]. by rewrite toggle_auto_answer_switch_sets.
  - destruct setting as [v].
    destruct (toggle_auto_answer_switch_rejected_or_accepted cid aid v u d)
      as [[key ->]|[? ?]]; [done|]. by rewrite toggle_auto_answer_switch_sets.
  - intros cid. unfold show_chatroom_details, bind, read, ret.
    by destruct (lk_status _).
Qed.

(** ** History, delete and update *)

(** X16: fetching history again changes nothing more.  A second history
    call on the store the first one left (any page of either call)
    leaves that store as it is: the room stays viewed and the messages
    stay read. *)
Theorem history_twice_changes_nothing_more cid page page_size page' page_size' u d :
  (chatroom_message cid page' page_size' u
     (chatroom_message cid page page_size u d).2).2
  = (chatroom_message cid page page_size u d).2.
Proof.
  destruct (lk_status (search_chatrooms_id cid (uid u) d)) eqn:Hok.
  - rewrite (chatroom_message_found cid page page_size) by done. cbn [snd].
    set (d' := set_messages _ _).
    destruct (search_chatrooms_id_after_column cid (uid u) "active" (PInt 0) d d')
      as [Hst _]; [done..|].
    rewrite chatroom_message_found by (by rewrite Hst).
    subst d'. store_simpl. by rewrite !tbl_update_idempotent.
  - assert (chatroom_message cid page page_size u d
            = (response_error "chatroom_does_not_exist", d)) as ->.
    { unfold chatroom_message, bind, read, ret. by rewrite Hok. }
    cbn [snd]. unfold chatroom_message, bind, read, ret. by rewrite Hok.
Qed.

Lemma delete_chatroom_hides_room cid u d :
  cid ≠ 0 → lk_status (search_chatrooms_id cid (uid u) d) = true →
  lk_status (search_chatrooms_id cid (uid u) (delete_chatroom cid u d).2) = false.
Proof.
  intros Hcid Hok. rewrite delete_chatroom_found by done. store_simpl.
  apply search_chatrooms_id_missing. store_simpl. intros r Hin H1 H2.
  pose proof (tbl_update_two_columns "id" (PInt cid) "user_id" (PInt (uid u))
                "status" (PInt 3) (chatrooms d)) as Hset.
  assert (col r "status" = PInt 3) as ->; [|done].
  eapply (column_set_holds
            (λ r, col r "id" = PInt cid ∧ col r "user_id" = PInt (uid u)) _ _ _ _ r);
    [|exact Hset|done|done].
  intros r0. cbv beta. by rewrite !col_insert_ne.
Qed.

(** X17: a deleted room is gone for every handler.  After a successful
    delete, the same caller's update, delete, set_smart_selection,
    set_agent_active and history calls on that room are answered with
    the does-not-exist error, details with the does-not-exist success
    envelope (code 1), and none of them writes anything. *)
Theorem deleted_room_is_gone cid u d :
  cid ≠ 0 →
  lk_status (search_chatrooms_id cid (uid u) d) = true →
  let d' := (delete_chatroom cid u d).2 in
  (delete_chatroom cid u d).1
  = response_success (Msg "chatroom_delete_success") None None ∧
  delete_chatroom cid u d' = (response_error "chatroom_does_not_exist", d') ∧
  (∀ req, update_chatroom cid req u d'
          = (response_error "chatroom_does_not_exist", d')) ∧
  (∀ data, toggle_smart_selection_switch cid data u d'
           = (response_error "chatroom_does_not_exist", d')) ∧
  (∀ aid setting, toggle_auto_answer_switch cid aid setting u d'
                  = (response_error "chatroom_does_not_exist", d')) ∧
  (∀ page page_size, chatroom_message cid page page_size u d'
                     = (response_error "chatroom_does_not_exist", d')) ∧
  show_chatroom_details cid u d'
  = (response_success NoData (Some "chatroom_does_not_exist") (Some 1), d').
Proof.
  intros Hcid Hok d'. subst d'.
  pose proof (delete_chatroom_hides_room cid u d Hcid Hok) as Hgone.
  set (d' := (delete_chatroom cid u d).2) in *.
  split; [by rewrite delete_chatroom_found|].
  apply Z.eqb_neq in Hcid.
  unfold delete_chatroom at 1, update_chatroom, toggle_smart_selection_switch,
    toggle_auto_answer_switch, chatroom_message, show_chatroom_details,
    bind, read, ret, get_language_content.
  rewrite Hcid, Hgone. done.
Qed.

Lemma deleted_room_is_gone_witness :
  delete_chatroom 1 alice (delete_chatroom 1 alice db1).2
  = (response_error "chatroom_does_not_exist", (delete_chatroom 1 alice db1).2).
Proof.
  apply (proj1 (proj2 (deleted_room_is_gone 1 alice db1 ltac:(lia) eq_refl))).
Defined.

Lemma col_union_l (data r : row) k v : data !! k = Some v → col (data ∪ r) k = v.
Proof. intros H. unfold col. by rewrite (lookup_union_Some_l _ _ _ _ H). Qed.

Lemma tbl_update_elem_inv conds data t r' :
  r' ∈ rows (tbl_update conds data t) →
  ∃ r, r ∈ rows t ∧ r' = if matches conds r then data ∪ r else r.
Proof.
  unfold tbl_update. cbn [rows]. intros Hin.
  apply list_elem_of_In, in_map_iff in Hin as (r & <- & Hr).
  exists r. split; [by apply list_elem_of_In|done].
Qed.

Lemma matches_four c1 v1 c2 v2 c3 v3 c4 v4 r :
  matches [(c1, v1); (c2, v2); (c3, v3); (c4, v4)] r = true ↔
  col r c1 = v1 ∧ col r c2 = v2 ∧ col r c3 = v3 ∧ col r c4 = v4.
Proof.
  unfold matches. cbn [forallb fst snd].
  rewrite !andb_true_iff, !bool_decide_eq_true. tauto.
Qed.

(** X18: what update writes besides the memberships.  An accepted
    update on a room that is found leaves the room found, with the
    [max_round] that was sent and the same application; it writes the
    name and description that were sent into the application row that
    has the room's application id, the caller's team and user and mode
    5, and leaves every other application row as it is (also the room's
    own application when it fails one of these filters, in which case
    the call succeeds all the same). *)
Theorem update_writes_room_and_application cid (req : ReqChatroomUpdateSchema) u d :
  lk_status (search_chatrooms_id cid (uid u) d) = true →
  request_accepted req →
  let out := update_chatroom cid req u d in
  let app := lk_app_id (search_chatrooms_id cid (uid u) d) in
  out.1 = response_success (ChatroomId cid) None None ∧
  lk_status (search_chatrooms_id cid (uid u) out.2) = true ∧
  lk_max_round (search_chatrooms_id cid (uid u) out.2) = max_round req ∧
  lk_app_id (search_chatrooms_id cid (uid u) out.2) = app ∧
  (∀ a, a ∈ rows (apps out.2) →
        col a "id" = app → col a "team_id" = PInt (team_id u) →
        col a "user_id" = PInt (uid u) → col a "mode" = PInt 5 →
        col a "name" = name req ∧ col a "description" = description req) ∧
  (∀ a, a ∈ rows (apps d) →
        ¬ (col a "id" = app ∧ col a "team_id" = PInt (team_id u) ∧
           col a "user_id" = PInt (uid u) ∧ col a "mode" = PInt 5) →
        a ∈ rows (apps out.2)) ∧
  length (rows (apps out.2)) = length (rows (apps d)).
Proof.
  intros Hok Hreq out app. subst out.
  rewrite update_chatroom_accepted by done. fold app. cbn [fst snd].
  set (d' := set_relations _ _).
  destruct (search_chatrooms_id_after_column cid (uid u) "max_round" (max_round req) d d')
    as [Hst Hfound]; [done..|].
  destruct (Hfound Hok) as (r & _ & Hbefore & Hafter).
  split; [done|]. split; [by rewrite Hst|].
  split; [by rewrite Hafter; cbn; rewrite col_insert_eq|].
  split; [subst app; rewrite Hafter, Hbefore; cbn; by rewrite col_insert_ne|].
  subst d'. store_simpl. split; [|split].
  - intros a [a0 [Ha0 ->]]%tbl_update_elem_inv H1 H2 H3 H4.
    destruct (matches _ a0) eqn:Hm.
    + split; apply col_union_l; [by rewrite lookup_insert_eq|].
      by rewrite lookup_insert_ne, lookup_singleton_eq.
    + rewrite <- not_true_iff_false, matches_four in Hm. by destruct Hm.
  - intros a Ha Hno.
    pose proof (tbl_update_elem
                  [("id", app); ("team_id", PInt (team_id u));
                   ("user_id", PInt (uid u)); ("mode", PInt 5)]
                  {["name" := name req; "description" := description req]}
                  (apps d) a Ha) as Hin.
    rewrite <- matches_four in Hno. apply not_true_is_false in Hno.
    by rewrite Hno in Hin.
  - unfold tbl_update. cbn [rows]. by rewrite length_map.
Qed.

Lemma update_writes_room_and_application_witness :
  lk_max_round
    (search_chatrooms_id 1 (uid alice)
       (update_chatroom 1
          {| name := PStr "new"; description := PStr "d"; max_round := PInt 3;
             agent := [entry (PInt 1) (PInt 1)] |} alice db1).2)
  = PInt 3.
Proof.
  assert (request_accepted
            {| name := PStr "new"; description := PStr "d"; max_round := PInt 3;
               agent := [entry (PInt 1) (PInt 1)] |}) as Hreq.
  { repeat split; [done|]. repeat constructor; apply entry_well_shaped. }
  exact (proj1 (proj2 (proj2 (update_writes_room_and_application 1 _ alice db1
                                eq_refl Hreq)))).
Defined.

(** ** Details *)

(** X19: details tags every membership.  On a room that is found,
    details succeeds without writing, carries the room's [max_round],
    [smart_selection] and status as the lookup reports them, and lists
    the memberships of the room in order, each with a [type] that is
    "my_agent" when the entry's [user_id] is the caller's and
    "more_agent" otherwise (never the empty string it is first set
    to). *)
Theorem details_tags_every_membership cid u d :
  lk_status (search_chatrooms_id cid (uid u) d) = true →
  let room := search_chatrooms_id cid (uid u) d in
  ∃ agent_list,
    show_chatroom_details cid u d
    = (response_success
         (Details (get_app_by_id (lk_app_id room) d) agent_list (lk_max_round room)
            (lk_smart_selection room) (lk_chatroom_status room)) None None, d) ∧
    (λ r : row, (col r "agent_id", col r "active")) <$> agent_list
    = (λ r : row, (col r "agent_id", col r "active")) <$>
        get_agents_by_chatroom_id cid d ∧
    ∀ r, r ∈ agent_list →
         col r "type" = PStr (if decide (col r "user_id" = PInt (uid u))
                              then "my_agent" else "more_agent").
Proof.
  intros Hok room. subst room.
  unfold show_chatroom_details, bind, read, ret. rewrite Hok. cbn [negb].
  eexists. split; [reflexivity|]. split.
  - unfold show_chatroom_agent. rewrite map_map, <- list_fmap_compose.
    apply list_fmap_ext. intros i r _. cbn.
    case_bool_decide; by rewrite !col_insert_ne.
  - intros r (r0 & <- & _)%list_elem_of_In%in_map_iff.
    case_bool_decide as Hu.
    + rewrite col_insert_eq, col_insert_ne by done. by rewrite decide_True.
    + rewrite col_insert_eq, col_insert_ne by done. by rewrite decide_False.
Qed.

Lemma details_tags_every_membership_witness :
  ∃ agent_list,
    (show_chatroom_details 1 alice db1).2 = db1 ∧
    (λ r : row, col r "type") <$> agent_list = [PStr "my_agent"; PStr "my_agent"] ∧
    ∀ r, r ∈ agent_list →
         col r "type" = PStr (if decide (col r "user_id" = PInt (uid alice))
                              then "my_agent" else "more_agent").
Proof.
  destruct (details_tags_every_membership 1 alice db1 eq_refl)
    as (agent_list & Hresp & _ & Htags).
  exists agent_list. rewrite Hresp. split; [reflexivity|]. split; [|exact Htags].
  injection Hresp as <-. reflexivity.
Defined.
